(** * Verification of the ranking engine of project-brain (brain.py)

    A shallow embedding of the text-processing and scoring functions of
    [src/project-brain/brain.py]: [stem], [tokenize],
    [entry_to_corpus_doc], [build_bm25_index] and [score_entries_bm25].

    Modelling choices.
    - A Python [str] is a [string]; a character is an [ascii], read as a
      code point below 256.
    - An entry is the dict built by [parse_index_entries]: a finite map
      from field names to strings, read with [entry.get(k, default)].
    - The stages of the engine after the index are given twice. [Ranker]
      computes the scores with exact rationals ([Q]); it serves the
      statements on the order of the results, on their sign and on which
      entries are returned. [Binary64] is the same code with the
      arithmetic of a Python [float], IEEE 754 binary64, as primitive
      floats; it serves the statements that name amounts.
    - The package [rank_bm25] is imported by the program but is not part
      of it; its class [BM25Okapi] is a parameter of the engine (Section
      [Engine]). *)

From Stdlib Require Import Ascii String QArith Lia Lqa DecimalString DecimalNat.
From Stdlib Require PrimFloat.
From stdpp Require Import gmap strings list fin_maps sorting.

Local Open Scope nat_scope.

(** A decimal literal such as [0.15] stands for the nearest binary64
    number, as in Python. *)
Set Warnings "-inexact-float".

(** ** Python string primitives *)

Module Py.

(** [len(s)] *)
Definition len (s : string) : nat := String.length s.

(** [s.endswith(suf)]: the reversed suffix starts the reversed string. *)
Definition endswith (s suf : string) : bool :=
  String.prefix (String.rev suf) (String.rev s).

(** [s.startswith(pre)] *)
Definition startswith (s pre : string) : bool := String.prefix pre s.

(** [s[:-n]] for a positive literal [n]; empty when [n >= len(s)]. *)
Definition drop_last (n : nat) (s : string) : string :=
  String.substring 0 (len s - n) s.

(** [s[-k]] for a positive literal [k]; [None] stands for IndexError. *)
Definition from_end (k : nat) (s : string) : option ascii :=
  if (k <=? len s) && (0 <? k) then String.get (len s - k) s else None.

(** [len(base) >= 2 and base[-1] == base[-2]] *)
Definition ends_doubled (base : string) : bool :=
  (2 <=? len base) &&
  bool_decide (from_end 1 base = from_end 2 base).

End Py.

(** ** The stemmer, [stem] (brain.py, lines 252-338)

    The chain of [if ... return] statements is kept as an ordered table
    of rules; a rule answers [Some r] when its [return r] is reached and
    [None] when control falls to the next [if]. *)

Module Stemmer.
Import Py.

Definition rule : Type := string → option string.

(** [if word.endswith(suf): return word[:-n] + app] *)
Definition suffix_rule (suf : string) (n : nat) (app : string) : rule :=
  λ word, if endswith word suf then Some (drop_last n word +:+ app) else None.

(** [if word.endswith(suf) and len(word) > m: return word[:-n] + app] *)
Definition guarded_rule (suf : string) (m n : nat) (app : string) : rule :=
  λ word,
    if endswith word suf && (m <? len word)
    then Some (drop_last n word +:+ app) else None.

Definition rule_ling : rule := λ word,
  if endswith word "ling" && (5 <? len word)
     && negb (bool_decide (from_end 5 word = Some "l"%char))
  then Some (drop_last 3 word +:+ "e") else None.

Definition rule_ting : rule := λ word,
  if endswith word "ting" && (5 <? len word) && negb (endswith word "sting")
  then
    let base := drop_last 3 word in
    if negb (endswith base "t") then Some base else None
  else None.

Definition rule_ing : rule := λ word,
  if endswith word "ing" && (4 <? len word)
  then
    let base := drop_last 3 word in
    if ends_doubled base then Some (drop_last 1 base)
    else if 2 <? len base then Some base
    else None
  else None.

Definition rule_ed : rule := λ word,
  if endswith word "ed" && (3 <? len word)
  then
    let base := drop_last 2 word in
    if endswith base "i" then Some (drop_last 1 base +:+ "y")
    else if ends_doubled base then Some (drop_last 1 base)
    else Some base
  else None.

Definition rule_es : rule := λ word,
  if endswith word "es" && (3 <? len word)
  then
    if endswith word "ches" || endswith word "shes" || endswith word "sses"
    then Some (drop_last 2 word)
    else Some (drop_last 2 word)
  else None.

Definition rule_s : rule := λ word,
  if endswith word "s" && negb (endswith word "ss") && (3 <? len word)
  then Some (drop_last 1 word) else None.

(** The rules tried before the general [-ing] rule (lines 259-300). *)
Definition rules_before_ing : list rule :=
  [ suffix_rule "ational" 7 "ate";
    suffix_rule "ization" 7 "ize";
    suffix_rule "iveness" 7 "ive";
    suffix_rule "fulness" 7 "ful";
    suffix_rule "ousness" 7 "ous";
    guarded_rule "ement" 7 5 EmptyString;
    guarded_rule "ment" 6 4 EmptyString;
    guarded_rule "ation" 7 5 "e";
    suffix_rule "ating" 3 "e";
    rule_ling;
    suffix_rule "ying" 4 "y";
    rule_ting;
    suffix_rule "sses" 2 EmptyString;
    guarded_rule "ies" 4 3 "y";
    guarded_rule "ness" 5 4 EmptyString;
    suffix_rule "less" 4 EmptyString;
    guarded_rule "able" 5 4 EmptyString;
    guarded_rule "ible" 5 4 EmptyString;
    suffix_rule "ally" 4 "al" ].

(** The rules tried after it (lines 307-337). *)
Definition rules_after_ing : list rule :=
  [ guarded_rule "ment" 5 4 EmptyString;
    guarded_rule "ful" 4 3 EmptyString;
    guarded_rule "ous" 4 3 EmptyString;
    guarded_rule "ive" 4 3 EmptyString;
    suffix_rule "ized" 4 "ize";
    suffix_rule "ised" 4 "ise";
    suffix_rule "tion" 4 "t";
    rule_ed;
    guarded_rule "er" 4 2 EmptyString;
    guarded_rule "ly" 4 2 EmptyString;
    rule_es;
    rule_s ].

Definition stem_rules : list rule :=
  rules_before_ing ++ rule_ing :: rules_after_ing.

(** The first rule that returns decides. *)
Fixpoint first_match (rs : list rule) (word : string) : option string :=
  match rs with
  | [] => None
  | r :: rs' =>
      match r word with
      | Some out => Some out
      | None => first_match rs' word
      end
  end.

Definition stem (word : string) : string :=
  if len word <=? 3 then word
  else default word (first_match stem_rules word).

End Stemmer.


(** ** More Python string and regular-expression primitives *)

Module Text.
Import Py.

Definition code (c : ascii) : nat := nat_of_ascii c.

Definition between (lo hi : nat) (c : ascii) : bool :=
  (lo <=? code c) && (code c <=? hi).

(** [str.lower] on one character: A-Z, and the Latin-1 capitals
    (except the multiplication sign, 215), move up by 32. *)
Definition lower_char (c : ascii) : ascii :=
  if between 65 90 c || (between 192 222 c && negb (code c =? 215))
  then ascii_of_nat (code c + 32) else c.

Fixpoint lower (s : string) : string :=
  match s with
  | EmptyString => EmptyString
  | String c s' => String (lower_char c) (lower s')
  end.

(** The characters removed by [str.strip()]. *)
Definition is_space (c : ascii) : bool :=
  between 9 13 c || between 28 32 c || (code c =? 133) || (code c =? 160).

Fixpoint lstrip (s : string) : string :=
  match s with
  | EmptyString => EmptyString
  | String c s' => if is_space c then lstrip s' else s
  end.

(** [s.strip()] *)
Definition strip (s : string) : string :=
  String.rev (lstrip (String.rev (lstrip s))).

(** [not s] *)
Definition is_empty (s : string) : bool :=
  match s with EmptyString => true | String _ _ => false end.

(** [sub in s] on strings *)
Fixpoint contains (sub s : string) : bool :=
  String.prefix sub s ||
  match s with
  | EmptyString => false
  | String _ s' => contains sub s'
  end.

(** [sep.join(parts)] *)
Fixpoint join (sep : string) (parts : list string) : string :=
  match parts with
  | [] => EmptyString
  | [p] => p
  | p :: ps => p +:+ sep +:+ join sep ps
  end.

(** [s.split(sep)] for a one-character separator; [cur] is the piece
    being read, reversed. *)
Fixpoint split_go (sep : ascii) (cur s : string) : list string :=
  match s with
  | EmptyString => [String.rev cur]
  | String c s' =>
      if bool_decide (c = sep) then String.rev cur :: split_go sep EmptyString s'
      else split_go sep (String c cur) s'
  end.

Definition split (sep : ascii) (s : string) : list string :=
  split_go sep EmptyString s.

(** [re.split(r"[,;]+", s)]: a maximal run of separators is one cut. *)
Definition is_link_sep (c : ascii) : bool :=
  bool_decide (c = ","%char) || bool_decide (c = ";"%char).

Fixpoint re_split_go (in_run : bool) (cur s : string) : list string :=
  match s with
  | EmptyString => [String.rev cur]
  | String c s' =>
      if is_link_sep c then
        if in_run then re_split_go true cur s'
        else String.rev cur :: re_split_go true EmptyString s'
      else re_split_go false (String c cur) s'
  end.

Definition re_split_links (s : string) : list string :=
  re_split_go false EmptyString s.

(** [re.findall(r"[a-z0-9][-a-z0-9]*", s)] *)
Definition is_alnum (c : ascii) : bool := between 97 122 c || between 48 57 c.

Definition is_word_char (c : ascii) : bool :=
  is_alnum c || bool_decide (c = "-"%char).

Fixpoint findall_go (cur : option string) (s : string) : list string :=
  match s with
  | EmptyString => option_list (String.rev <$> cur)
  | String c s' =>
      match cur with
      | Some tok =>
          if is_word_char c then findall_go (Some (String c tok)) s'
          else String.rev tok :: findall_go None s'
      | None =>
          if is_alnum c then findall_go (Some (String c EmptyString)) s'
          else findall_go None s'
      end
  end.

Definition findall_words (s : string) : list string := findall_go None s.

End Text.

(** ** Tokenizer and document builder (brain.py, lines 238-381) *)

Module Tokenizer.
Import Py Text Stemmer.

Definition STOPWORDS : list string :=
  [ "the"; "a"; "an"; "is"; "are"; "was"; "were"; "be"; "been"; "being";
    "have"; "has"; "had"; "do"; "does"; "did"; "will"; "would"; "could";
    "should"; "may"; "might"; "can"; "shall"; "to"; "of"; "in"; "for";
    "on"; "with"; "at"; "by"; "from"; "as"; "into"; "through"; "during";
    "before"; "after"; "above"; "below"; "between"; "and"; "but"; "or";
    "not"; "no"; "nor"; "so"; "yet"; "both"; "each"; "this"; "that";
    "these"; "those"; "it"; "its"; "they"; "them"; "their"; "we"; "our";
    "you"; "your"; "he"; "she"; "his"; "her"; "which"; "what"; "when";
    "where"; "who"; "whom"; "how"; "all"; "any"; "some"; "none"; "if";
    "then"; "than"; "too"; "very"; "just"; "also"; "about"; "up"; "out" ].

(** The loop that fills [expanded]. *)
Definition expand (t : string) : list string :=
  t :: (if contains "-" t
        then List.filter (λ part, negb (is_empty part)) (split "-" t)
        else []).

Definition keep_token (t : string) : bool :=
  negb (bool_decide (t ∈ STOPWORDS)) && (1 <? len t).

Definition tokenize (text : string) : list string :=
  let raw_tokens := findall_words (lower text) in
  let expanded := raw_tokens ≫= expand in
  stem <$> List.filter keep_token expanded.

(** An entry of the fat index: the dict made by [parse_index_entries]. *)
Abbreviation entry := (gmap string string).

(** [entry.get(key, dflt)] *)
Definition get (e : entry) (key dflt : string) : string :=
  default dflt (e !! key).

Definition entry_to_corpus_doc (e : entry) : list string :=
  let tags := get e "tags" EmptyString in
  let parts :=
    replicate 5 tags ++ replicate 4 (get e "id" EmptyString)
    ++ [get e "summary" EmptyString; get e "type" EmptyString;
        get e "file" EmptyString; get e "known_issues" EmptyString] in
  tokenize (join " " parts).

End Tokenizer.


(** ** Scores *)

Module Score.

(** [x > y] on scores, as a boolean. *)
Definition Qgtb (x y : Q) : bool := negb (Qle_bool x y).

(** The constants of [score_entries_bm25]. *)
Definition TAG_BOOST : Q := 5.
Definition ID_BOOST : Q := 4.
Definition LINK_FRACTION : Q := 15 # 100.
Definition K1 : Q := 1.
Definition B : Q := 4 # 10.

(** [sum] of a list of scores. *)
Definition Qsum (l : list Q) : Q := foldr Qplus 0%Q l.

End Score.

(** ** The ranking engine, [score_entries_bm25] (brain.py, lines 384-457) *)

Module Ranker.
Import Py Text Tokenizer Score.

Abbreviation scored := (Q * entry)%type.

(** *** Stage 2: structural boosts *)

(** The list [t.strip().lower() for t in entry.get("tags", EMPTY).split(",")],
    where EMPTY is the empty string. *)
Definition entry_tags (e : entry) : list string :=
  (λ t, lower (strip t)) <$> split "," (get e "tags" EmptyString).

Definition tag_match (e : entry) (term : string) : bool :=
  bool_decide (lower term ∈ entry_tags e).

Definition id_match (e : entry) (term : string) : bool :=
  contains (lower term) (lower (get e "id" EmptyString)).

(** One turn of the loop [for term in query_terms]. *)
Definition boost_term (e : entry) (score : Q) (term : string) : Q :=
  let score := if tag_match e term then (score + TAG_BOOST)%Q else score in
  if id_match e term then (score + ID_BOOST)%Q else score.

Definition boost_entry (query_terms : list string) (raw : Q) (e : entry) : Q :=
  fold_left (boost_term e) query_terms raw.

(** The bonus one query term earns an entry: 5 for an exact tag, 4 for
    a substring of the id, 9 for both. *)
Definition term_bonus (e : entry) (term : string) : Q :=
  ((if tag_match e term then TAG_BOOST else 0) +
   (if id_match e term then ID_BOOST else 0))%Q.

(** The loop [for i, entry in enumerate(entries)], from index [i] on;
    [raw_scores[i]] out of range is an IndexError, here [None]. *)
Fixpoint boost_from (i : nat) (entries : list entry) (raw_scores : list Q)
    (query_terms : list string) : option (list scored) :=
  match entries with
  | [] => Some []
  | e :: es =>
      raw ← raw_scores !! i;
      rest ← boost_from (S i) es raw_scores query_terms;
      Some ((boost_entry query_terms raw e, e) :: rest)
  end.

Definition structural_boosts := boost_from 0.

(** *** Stage 3: link propagation *)

(** The dict [{e.get("id", EMPTY): s for s, e in boosted}]: a later
    entry with the same id replaces the earlier one. *)
Definition id_to_score (boosted : list scored) : gmap string Q :=
  fold_left (λ m se, <[get se.2 "id" EmptyString := se.1]> m) boosted ∅.

(** The list [lid.strip() for lid in re.split(r"[,;]+", links_str) if lid.strip()] *)
Definition linked_ids (links_str : string) : list string :=
  List.filter (λ lid, negb (is_empty lid)) (strip <$> re_split_links links_str).

(** The targets an entry propagates to: none when the links field is
    empty or starts with an underscore (the [continue] of line 441). *)
Definition link_targets (e : entry) : list string :=
  let links_str := get e "links" EmptyString in
  if is_empty links_str || startswith links_str "_" then []
  else linked_ids links_str.

(** [link_boost.get(lid, 0.0)] *)
Definition pool_get (link_boost : gmap string Q) (lid : string) : Q :=
  default 0%Q (link_boost !! lid).

(** [link_boost[lid] = link_boost.get(lid, 0.0) + propagated] *)
Definition add_link (score : Q) (link_boost : gmap string Q) (lid : string)
    : gmap string Q :=
  let propagated := (score * LINK_FRACTION)%Q in
  <[lid := (pool_get link_boost lid + propagated)%Q]> link_boost.

(** One turn of the loop [for score, entry in boosted]. *)
Definition propagate_entry (link_boost : gmap string Q) (se : scored)
    : gmap string Q :=
  if Qle_bool se.1 0 then link_boost
  else fold_left (add_link se.1) (link_targets se.2) link_boost.

Definition link_propagation (boosted : list scored) : gmap string Q :=
  fold_left propagate_entry boosted ∅.


(** *** Stage 4: applying the pool, filtering, sorting *)

Definition total_score (link_boost : gmap string Q) (se : scored) : Q :=
  (se.1 + pool_get link_boost (get se.2 "id" EmptyString))%Q.

Definition with_total (link_boost : gmap string Q) (se : scored) : scored :=
  (total_score link_boost se, se.2).

Definition positive (se : scored) : bool := Qgtb se.1 0.

Definition apply_link_boosts (boosted : list scored)
    (link_boost : gmap string Q) : list scored :=
  List.filter positive (with_total link_boost <$> boosted).

(** [l.sort(key=key, reverse=True)]: Python's sort is stable, also
    with [reverse=True]; an element stays ahead of the later elements
    that have an equal key. *)
Section Sort.
Context {A : Type} (key : A → Q).

Fixpoint insert_desc (x : A) (l : list A) : list A :=
  match l with
  | [] => [x]
  | y :: l' => if Qgtb (key y) (key x) then y :: insert_desc x l' else x :: l
  end.

Definition sort_desc (l : list A) : list A := foldr insert_desc [] l.

End Sort.

(** *** The engine, over the imported BM25 class *)

Section Engine.

(** [rank_bm25.BM25Okapi]: the index type, its constructor (given
    the corpus, [k1] and [b]; [None] when it raises) and its method
    [get_scores]. *)
Variable BM25 : Type.
Variable BM25Okapi : list (list string) → Q → Q → option BM25.
Variable get_scores : BM25 → list string → list Q.

Definition build_bm25_index (entries : list entry) : option BM25 :=
  let corpus := entry_to_corpus_doc <$> entries in
  BM25Okapi corpus K1 B.

Definition score_entries_bm25 (entries : list entry)
    (query_terms : list string) : option (list scored) :=
  bm25 ← build_bm25_index entries;
  let query_tokens := tokenize (join " " query_terms) in
  match query_tokens with
  | [] => Some []
  | _ :: _ =>
      (* Stage 1: BM25 scores *)
      let raw_scores := get_scores bm25 query_tokens in
      (* Stage 2: structural boosts *)
      boosted ← structural_boosts entries raw_scores query_terms;
      (* Stage 3: link propagation; [id_to_score] is built and not read *)
      let _id_to_score := id_to_score boosted in
      let link_boost := link_propagation boosted in
      (* Apply link boosts, sort *)
      let final := apply_link_boosts boosted link_boost in
      Some (sort_desc fst final)
  end.

End Engine.

End Ranker.

(** ** A term-count index

    A small index with the interface of [BM25Okapi], used to run the
    engine on concrete corpora: the score of a document is the number of
    occurrences of the query tokens in it. *)

Module TermCount.
Import Score.

Definition index : Type := list (list string).

Definition make (corpus : list (list string)) (k1 b : Q) : option index :=
  Some corpus.

Definition occurrences (doc : list string) (t : string) : nat :=
  length (List.filter (λ w, bool_decide (w = t)) doc).

Definition doc_score (query : list string) (doc : list string) : Q :=
  inject_Z (Z.of_nat (sum_list (occurrences doc <$> query))).

Definition get_scores (ix : index) (query : list string) : list Q :=
  doc_score query <$> ix.

Definition rank := Ranker.score_entries_bm25 index make get_scores.

End TermCount.

(** ** Sample corpora *)

Module Sample.
Import Tokenizer.

Definition mk (id tags links summary : string) : entry :=
  <["id" := id]> (<["tags" := tags]> (<["links" := links]>
    (<["summary" := summary]> ∅))).

Definition entry_a : entry := mk "LEARN-001" "cache,eviction" "LEARN-002" "eviction policy".
Definition entry_b : entry := mk "LEARN-002" "storage" EmptyString "disk layout".
Definition entry_c : entry := mk "LEARN-003" "cache" "LEARN-002, _none" "cache warmup".
(** Two entries sharing one id. *)
Definition dup_first : entry := mk "SPEC-007" "parser" EmptyString "first record".
Definition dup_second : entry := mk "SPEC-007" "lexer" EmptyString "second record".

End Sample.


(** ** Two rows of the specification, read literally

    These two statements follow the wording of the specification, not
    the code; they are compared with the code below. *)

Module AsStated.
Import Py Stemmer Tokenizer Ranker.

(** The [-ing] row of the rule table: once the rule is reached, the
    suffix is dropped, and a doubled last letter of the base with it. *)
Definition ing_stripped (w : string) : string :=
  let base := drop_last 3 w in
  if ends_doubled base then drop_last 1 base else base.

Definition ing_always_stripped (w : string) : Prop :=
  4 < len w → endswith w "ing" = true →
  first_match rules_before_ing w = None →
  stem w = ing_stripped w.

(** Link parsing: no target of an entry starts with an underscore. *)
Definition underscore_never_target (e : entry) : Prop :=
  ∀ lid, lid ∈ link_targets e → startswith lid "_" = false.

End AsStated.

(** ** Helpers of the commands

    [estimate_tokens] and [next_id] (brain.py, lines 92-126), the slug
    of a title (lines 624, 813 and 1067), the splitting of the query
    (lines 749 and 787), the top slice of [cmd_recall] (line 793) and
    the comparison of two manifests in [cmd_reindex] (lines 968-981). *)

Module Cli.
Import Py Text Tokenizer Ranker.

(** [estimate_tokens]: [len(text) // 4] *)
Definition estimate_tokens (text : string) : nat := len text / 4.

(** The keys of the dict [FILE_TYPES]. *)
Definition FILE_TYPE_NAMES : list string :=
  ["SPEC"; "CODE"; "RULE"; "LEARN"; "LOG"; "RESET"].

Definition is_digit (c : ascii) : bool := between 48 57 c.

(** The longest run of digits at the start of [s]: what [(\d+)] takes. *)
Fixpoint take_digits (s : string) : string :=
  match s with
  | EmptyString => EmptyString
  | String c s' => if is_digit c then String c (take_digits s') else EmptyString
  end.

(** [s[len(pre):]] when [s.startswith(pre)], [None] otherwise. *)
Fixpoint strip_prefix (pre s : string) : option string :=
  match pre, s with
  | EmptyString, _ => Some s
  | String a pre', String b s' =>
      if bool_decide (a = b) then strip_prefix pre' s' else None
  | String _ _, EmptyString => None
  end.

(** Group 1 of [re.match(rf"{file_type}-(\d+)", stem)], [None] when
    there is no match. The callers pass a key of [FILE_TYPES], made of
    letters, so the pattern begins with that word literally. *)
Definition match_number (file_type stem : string) : option string :=
  rest ← strip_prefix (file_type +:+ "-") stem;
  let digits := take_digits rest in
  if is_empty digits then None else Some digits.

(** [int(digits)] for a string of decimal digits. *)
Definition int_of_digits (digits : string) : nat :=
  fold_left (λ n c, 10 * n + (code c - 48)) (list_ascii_of_string digits) 0.

(** The number of a file, when its stem has one: the body of the loop
    [for f in existing]. *)
Definition file_number (file_type stem : string) : option nat :=
  int_of_digits <$> match_number file_type stem.

(** [str(n)] *)
Definition str_of_nat (n : nat) : string :=
  NilEmpty.string_of_uint (Nat.to_uint n).

Fixpoint zeros (k : nat) : string :=
  match k with
  | 0 => EmptyString
  | S k' => String "0" (zeros k')
  end.

(** [f"{n:03d}"]: padded with zeros to three digits at least. *)
Definition format_03d (n : nat) : string :=
  let s := str_of_nat n in zeros (3 - len s) +:+ s.

(** [next_id]; [existing] holds the stems of the files that
    [type_dir.glob(f"{file_type}-*.md")] finds. *)
Definition next_id (existing : list string) (file_type : string) : string :=
  match existing with
  | [] => file_type +:+ "-001"
  | _ :: _ =>
      let numbers := omap (file_number file_type) existing in
      let next_num :=
        match numbers with
        | [] => 1
        | _ :: _ => max_list numbers + 1
        end in
      file_type +:+ "-" +:+ format_03d next_num
  end.

(** [re.sub(r"[^a-z0-9]+", "-", s)]: every maximal run of characters
    other than a-z and 0-9 becomes one hyphen; [in_run] tells that the
    run being read has its hyphen already. *)
Fixpoint dash_runs (in_run : bool) (s : string) : string :=
  match s with
  | EmptyString => EmptyString
  | String c s' =>
      if is_alnum c then String c (dash_runs false s')
      else if in_run then dash_runs true s'
      else String "-" (dash_runs true s')
  end.

(** [s.lstrip(ch)] and [s.strip(ch)] for a one-character [ch]. *)
Fixpoint lstrip_char (ch : ascii) (s : string) : string :=
  match s with
  | EmptyString => EmptyString
  | String c s' => if bool_decide (c = ch) then lstrip_char ch s' else s
  end.

Definition strip_char (ch : ascii) (s : string) : string :=
  String.rev (lstrip_char ch (String.rev (lstrip_char ch s))).

(** [re.sub(r"[^a-z0-9]+", "-", title.lower()).strip("-")] *)
Definition slug (title : string) : string :=
  strip_char "-" (dash_runs false (lower title)).

(** The slug of [cmd_recall]: the same, cut to 40 characters. *)
Definition recall_slug (task : string) : string :=
  String.substring 0 40 (slug task).

(** [re.split(pattern, s)] for a pattern that is one or more characters
    of a class [sep]; as [re_split_go], for any class. *)
Fixpoint re_split_with (sep : ascii → bool) (in_run : bool) (cur s : string)
    : list string :=
  match s with
  | EmptyString => [String.rev cur]
  | String c s' =>
      if sep c then
        if in_run then re_split_with sep true cur s'
        else String.rev cur :: re_split_with sep true EmptyString s'
      else re_split_with sep false (String c cur) s'
  end.

(** The class [[\s,]] *)
Definition is_query_sep (c : ascii) : bool :=
  is_space c || bool_decide (c = ","%char).

(** The list [t.strip() for t in re.split(r"[\s,]+", query) if t.strip()] *)
Definition split_query (query : string) : list string :=
  List.filter (λ t, negb (is_empty t))
    (strip <$> re_split_with is_query_sep false EmptyString query).


(** One record of the manifest: [{"hash": ..., "id": ..., "updated": ...}] *)
Record file_info : Type := {
  info_hash : string;
  info_id : string;
  info_updated : string
}.

(** A manifest is a dict from relative paths to records; it is kept as
    the list of its items, in iteration order. *)
Abbreviation manifest := (list (string * file_info)).

(** [rel in m] *)
Definition has_key (m : manifest) (rel : string) : bool :=
  bool_decide (rel ∈ m.*1).

(** [m[rel]] *)
Fixpoint item (m : manifest) (rel : string) : option file_info :=
  match m with
  | [] => None
  | (k, info) :: m' => if bool_decide (k = rel) then Some info else item m' rel
  end.

(** The three lists that [cmd_reindex] computes. *)
Definition new_files (old_manifest new_manifest : manifest) : list string :=
  (List.filter (λ ri, negb (has_key old_manifest ri.1)) new_manifest).*1.

Definition changed_files (old_manifest new_manifest : manifest) : list string :=
  (List.filter
     (λ ri, has_key old_manifest ri.1 &&
            negb (bool_decide (info_hash <$> item old_manifest ri.1
                               = Some (info_hash ri.2))))
     new_manifest).*1.

Definition deleted_files (old_manifest new_manifest : manifest) : list string :=
  List.filter (λ rel, negb (has_key new_manifest rel)) old_manifest.*1.

(** The report says "No changes detected." *)
Definition no_changes (old_manifest new_manifest : manifest) : bool :=
  bool_decide (new_files old_manifest new_manifest = []) &&
  bool_decide (changed_files old_manifest new_manifest = []) &&
  bool_decide (deleted_files old_manifest new_manifest = []).

End Cli.

(** ** The common shape of the stripping functions *)

Module Trim.

(** Dropping the leading characters that are in a class: [lstrip] is
    the instance for white space, [lstrip_char] for one character. *)
Fixpoint lstrip_by (p : ascii → bool) (s : string) : string :=
  match s with
  | EmptyString => EmptyString
  | String c s' => if p c then lstrip_by p s' else s
  end.

Definition strip_by (p : ascii → bool) (s : string) : string :=
  String.rev (lstrip_by p (String.rev (lstrip_by p s))).

End Trim.

(** ** More sample data *)

Module MoreSamples.
Import Tokenizer Cli.

(** An entry whose tags are stopwords. *)
Definition entry_all : entry :=
  Sample.mk "LEARN-004" "all,none" EmptyString "everything".



(** Two manifests: "a.md" is unchanged, "b.md" has a new hash, "c.md"
    is gone and "d.md" has been added. *)
Definition info (hash : string) : file_info :=
  {| info_hash := hash; info_id := "LEARN-001"; info_updated := "2025-01-01" |}.

Definition old_manifest : manifest :=
  [("a.md", info "h1"); ("b.md", info "h2"); ("c.md", info "h3")].

Definition new_manifest : manifest :=
  [("a.md", info "h1"); ("b.md", info "h9"); ("d.md", info "h4")].

End MoreSamples.

(** ** The parser of the fat index, [parse_index_entries]
    (brain.py, lines 174-217) *)

Module IndexParser.
Import Py Text Tokenizer Trim Cli.

Definition NEWLINE : ascii := "010"%char.

(** [re.split(r"^### ", text, flags=re.MULTILINE)]: the text is cut at
    every "### " that starts a line. [at_bol] tells that the position
    is the start of the text or follows a newline; [cur] is the piece
    being read, reversed. *)
Fixpoint split_headings_go (at_bol : bool) (cur s : string) : list string :=
  match s with
  | EmptyString => [String.rev cur]
  | String c s' =>
      match at_bol, c, s' with
      | true, "#"%char, String "#" (String "#" (String " " rest)) =>
          String.rev cur :: split_headings_go false EmptyString rest
      | _, _, _ =>
          split_headings_go (bool_decide (c = NEWLINE)) (String c cur) s'
      end
  end.

Definition split_headings (text : string) : list string :=
  split_headings_go true EmptyString text.

Definition is_upper (c : ascii) : bool := between 65 90 c.

(** [re.match(r"^[A-Z]+-\d+", s)] finds a match. *)
Definition looks_like_id (s : string) : bool :=
  let rest := lstrip_by is_upper s in
  (len rest <? len s) &&
  match rest with
  | String "-" digits => negb (is_empty (take_digits digits))
  | _ => false
  end.

(** The part of [s] before the first occurrence of [sep]; all of [s]
    when there is none. *)
Fixpoint before (sep s : string) : string :=
  match s with
  | EmptyString => EmptyString
  | String c s' => if String.prefix sep s then EmptyString
                   else String c (before sep s')
  end.

(** [line.split(marker)[1]] for a line that starts with [marker]. *)
Definition second_piece (marker line : string) : option string :=
  rest ← strip_prefix marker line; Some (before marker rest).

(** The markers of the [if ... elif] chain, with the key each one sets. *)
Definition FIELD_MARKERS : list (string * string) :=
  [ ("**Type:**", "type"); ("**File:**", "file"); ("**Tags:**", "tags");
    ("**Links:**", "links"); ("**Summary:**", "summary");
    ("**Interface:**", "interface"); ("**Known issues:**", "known_issues") ].

(** The first branch of the chain that a line takes: the key and the
    value it assigns. *)
Fixpoint field_of_line (markers : list (string * string)) (line : string)
    : option (string * string) :=
  match markers with
  | [] => None
  | (marker, key) :: rest =>
      if startswith line marker
      then (λ v, (key, strip v)) <$> second_piece marker line
      else field_of_line rest line
  end.

(** [line.strip().lstrip("- ")] *)
Definition clean_line (line : string) : string :=
  lstrip_by (λ c, bool_decide (c = "-"%char) || bool_decide (c = " "%char))
            (strip line).

(** One turn of the loop [for line in lines[1:]]. *)
Definition add_line (e : entry) (line : string) : entry :=
  match field_of_line FIELD_MARKERS (clean_line line) with
  | Some (key, value) => <[key := value]> e
  | None => e
  end.

(** The text after the first occurrence of [sep] in [s]. *)
Fixpoint after_first (sep s : string) : option string :=
  match strip_prefix sep s with
  | Some rest => Some rest
  | None =>
      match s with
      | EmptyString => None
      | String _ s' => after_first sep s'
      end
  end.

(** The lookahead [\n-\s*\*\*] holds at the start of [s]. *)
Definition at_next_field (s : string) : bool :=
  match s with
  | String "010" (String "-" rest) => startswith (lstrip rest) "**"
  | _ => false
  end.

(** What [(.*?)] takes, with [re.DOTALL]: the characters up to the
    first position where the lookahead holds, or up to the end. *)
Fixpoint lazy_until_field (s : string) : string :=
  match s with
  | EmptyString => EmptyString
  | String c s' => if at_next_field s then EmptyString
                   else String c (lazy_until_field s')
  end.

(** [s.split()]: the pieces between runs of white space, none empty. *)
Definition words (s : string) : list string :=
  List.filter (λ w, negb (is_empty w))
    (re_split_with is_space false EmptyString s).

(** Group 1 of the search for
    [\*\*Summary:\*\*\s*(.*?)(?=\n-\s*\*\*|\Z)] in [raw], with its white
    space normalized: [" ".join(group.split())]. *)
Definition summary_of (raw : string) : option string :=
  rest ← after_first "**Summary:**" raw;
  Some (join " " (words (lazy_until_field (lstrip rest)))).

(** The body of the loop [for chunk in chunks]: [None] for a chunk that
    is skipped. *)
Definition parse_chunk (chunk : string) : option entry :=
  let chunk := strip chunk in
  if is_empty chunk then None
  else
    let lines := split NEWLINE chunk in
    let entry_id := strip (hd EmptyString lines) in
    if negb (looks_like_id entry_id) then None
    else
      let raw := "### " +:+ chunk in
      let e := <["raw" := raw]> (<["id" := entry_id]> ∅) in
      let e := fold_left add_line (tl lines) e in
      Some match summary_of raw with
           | Some summary => <["summary" := summary]> e
           | None => e
           end.

Definition parse_index_entries (index_text : string) : list entry :=
  omap parse_chunk (split_headings index_text).

(** The double quote character. *)
Definition QUOTE : ascii := "034"%char.

(** The placeholder that [cmd_deposit] writes for the summary. *)
Definition TODO_SUMMARY : string :=
  "[TODO: Write a 1-2 sentence summary that answers "
  +:+ String QUOTE ("do I need to open this file?" +:+ String QUOTE "]").

(** The entry that [cmd_deposit] prints and writes into the index
    (lines 667-675), after [textwrap.dedent], for values that hold no
    newline. *)
Definition fat_entry (file_id file_type dir filename tags : string) : string :=
  "### " +:+ file_id +:+ String NEWLINE (
  "- **Type:** " +:+ file_type +:+ String NEWLINE (
  "- **File:** " +:+ dir +:+ "/" +:+ filename +:+ String NEWLINE (
  "- **Tags:** " +:+ tags +:+ String NEWLINE (
  "- **Links:** _none yet_" +:+ String NEWLINE (
  "- **Summary:** " +:+ TODO_SUMMARY +:+ String NEWLINE (
  "- **Known issues:** None open" +:+ String NEWLINE EmptyString)))))).

(** Lines, each followed by a newline. *)
Fixpoint unlines (lines : list string) : string :=
  match lines with
  | [] => EmptyString
  | l :: ls => l +:+ String NEWLINE (unlines ls)
  end.

(** The lines of [fat_entry] after the heading marker. *)
Definition fat_entry_lines (file_id file_type dir filename tags : string)
    : list string :=
  [ file_id;
    "- **Type:** " +:+ file_type;
    "- **File:** " +:+ dir +:+ "/" +:+ filename;
    "- **Tags:** " +:+ tags;
    "- **Links:** _none yet_";
    "- **Summary:** " +:+ TODO_SUMMARY;
    "- **Known issues:** None open" ].

(** A value that fills one line of an index entry as it is: not empty,
    no white space around it, no newline and no asterisk in it. *)
Definition plain_value (v : string) : Prop :=
  v ≠ EmptyString ∧ strip v = v ∧
  Forall (λ c, c ≠ NEWLINE ∧ c ≠ "*"%char) (list_ascii_of_string v).

End IndexParser.

(** ** A sample index *)

Module IndexSample.
Import Tokenizer IndexParser.

(** An index with one entry, as [cmd_deposit] writes it. *)
Definition index_text : string :=
  fat_entry "LEARN-003" "LEARN" "learnings" "LEARN-003_bm25-notes.md"
            "search, bm25".

(** The first entry read from it. *)
Definition first_entry : entry :=
  default ∅ (head (parse_index_entries index_text)).

End IndexSample.

(** ** The ranking engine with the arithmetic of the code
    (brain.py, lines 384-457)

    A Python [float] is an IEEE 754 binary64 number, and the engine adds
    and multiplies such numbers. [Ranker] computes with exact rationals,
    which decides the order of the results, their sign and which entries
    are returned. The amounts themselves are rounded by the code: here
    are the same stages over binary64, with the literals of the code. *)

Module Binary64.
Import Py Text Tokenizer.
Import PrimFloat.

Abbreviation scored := (float * entry)%type.

(** *** Stage 2: structural boosts *)

(** One turn of the loop [for term in query_terms]; the two tests are
    those of [Ranker]. *)
Definition boost_term (e : entry) (score : float) (term : string) : float :=
  let score := if Ranker.tag_match e term then (score + 5.0)%float else score in
  if Ranker.id_match e term then (score + 4.0)%float else score.

Definition boost_entry (query_terms : list string) (raw : float) (e : entry)
    : float :=
  fold_left (boost_term e) query_terms raw.

(** The loop [for i, entry in enumerate(entries)], from index [i] on;
    [raw_scores[i]] out of range is an IndexError, here [None]. *)
Fixpoint boost_from (i : nat) (entries : list entry) (raw_scores : list float)
    (query_terms : list string) : option (list scored) :=
  match entries with
  | [] => Some []
  | e :: es =>
      raw ← raw_scores !! i;
      rest ← boost_from (S i) es raw_scores query_terms;
      Some ((boost_entry query_terms raw e, e) :: rest)
  end.

Definition structural_boosts := boost_from 0.

(** *** Stage 3: link propagation *)

(** The dict [{e.get("id", EMPTY): s for s, e in boosted}], where EMPTY
    is the empty string. *)
Definition id_to_score (boosted : list scored) : gmap string float :=
  fold_left (λ m se, <[get se.2 "id" EmptyString := se.1]> m) boosted ∅.

(** [link_boost.get(lid, 0.0)] *)
Definition pool_get (link_boost : gmap string float) (lid : string) : float :=
  default 0.0%float (link_boost !! lid).

(** [link_boost[lid] = link_boost.get(lid, 0.0) + propagated] *)
Definition add_link (score : float) (link_boost : gmap string float)
    (lid : string) : gmap string float :=
  let propagated := (score * 0.15)%float in
  <[lid := (pool_get link_boost lid + propagated)%float]> link_boost.

(** One turn of the loop [for score, entry in boosted]. *)
Definition propagate_entry (link_boost : gmap string float) (se : scored)
    : gmap string float :=
  if (se.1 <=? 0)%float then link_boost
  else fold_left (add_link se.1) (Ranker.link_targets se.2) link_boost.

Definition link_propagation (boosted : list scored) : gmap string float :=
  fold_left propagate_entry boosted ∅.

(** *** Stage 4: applying the pool, filtering, sorting *)

Definition total_score (link_boost : gmap string float) (se : scored) : float :=
  (se.1 + pool_get link_boost (get se.2 "id" EmptyString))%float.

Definition with_total (link_boost : gmap string float) (se : scored) : scored :=
  (total_score link_boost se, se.2).

(** [total > 0] *)
Definition positive (se : scored) : bool := (0 <? se.1)%float.

Definition apply_link_boosts (boosted : list scored)
    (link_boost : gmap string float) : list scored :=
  List.filter positive (with_total link_boost <$> boosted).

(** [l.sort(key=key, reverse=True)], as in [Ranker]. *)
Section Sort.
Context {A : Type} (key : A → float).

Fixpoint insert_desc (x : A) (l : list A) : list A :=
  match l with
  | [] => [x]
  | y :: l' => if (key x <? key y)%float then y :: insert_desc x l' else x :: l
  end.

Definition sort_desc (l : list A) : list A := foldr insert_desc [] l.
End Sort.

(** *** The engine, over the imported BM25 class *)

Section Engine.
Variable BM25 : Type.
Variable BM25Okapi : list (list string) → float → float → option BM25.
Variable get_scores : BM25 → list string → list float.

Definition build_bm25_index (entries : list entry) : option BM25 :=
  let corpus := entry_to_corpus_doc <$> entries in
  BM25Okapi corpus 1.0%float 0.4%float.

Definition score_entries_bm25 (entries : list entry)
    (query_terms : list string) : option (list scored) :=
  bm25 ← build_bm25_index entries;
  let query_tokens := tokenize (join " " query_terms) in
  match query_tokens with
  | [] => Some []
  | _ :: _ =>
      let raw_scores := get_scores bm25 query_tokens in
      boosted ← structural_boosts entries raw_scores query_terms;
      let _id_to_score := id_to_score boosted in
      let link_boost := link_propagation boosted in
      let final := apply_link_boosts boosted link_boost in
      Some (sort_desc fst final)
  end.

End Engine.

(** One turn of the accumulation
    [link_boost[lid] = link_boost.get(lid, 0.0) + score * 0.15], on the
    value kept for [lid]. *)
Definition pour (pool score : float) : float := (pool + score * 0.15)%float.

(** The scores that the entries of [boosted] send to the id [lid], in
    the order in which the loop adds them: the score of an entry once
    for every occurrence of [lid] among its targets, and nothing from an
    entry that the test [score <= 0] skips. *)
Definition senders (lid : string) (boosted : list scored) : list float :=
  boosted ≫= λ se,
    if (se.1 <=? 0)%float then []
    else (λ _, se.1) <$> List.filter (λ t, bool_decide (t = lid))
                                     (Ranker.link_targets se.2).

End Binary64.

(** The term-count index with binary64 scores. *)
Module TermCount64.
Import PrimFloat.

Fixpoint float_of_nat (n : nat) : float :=
  match n with
  | 0 => 0%float
  | S n' => (float_of_nat n' + 1)%float
  end.

Definition make (corpus : list (list string)) (k1 b : float)
    : option TermCount.index :=
  Some corpus.

Definition get_scores (ix : TermCount.index) (query : list string) : list float :=
  (λ doc, float_of_nat (sum_list (TermCount.occurrences doc <$> query))) <$> ix.

Definition rank := Binary64.score_entries_bm25 TermCount.index make get_scores.

End TermCount64.

Module Sample64.
Import Tokenizer Sample.

(** An entry that names one target twice. *)
Definition entry_d : entry :=
  mk "LEARN-004" "cache" "LEARN-002; LEARN-002" "cache sizes".

(** An entry with a tag that is also a part of its id. *)
Definition entry_e : entry :=
  mk "LEARN-005" "learn, search" EmptyString "query syntax".

(** An entry that links to the id shared by [dup_first] and [dup_second]. *)
Definition entry_f : entry :=
  mk "LEARN-006" "parser" "SPEC-007" "parser notes".

End Sample64.

(** * Theorems *)

(** ** The stemmer *)

Module StemmerFacts.
Import Py Stemmer.

Lemma first_match_app (rs1 rs2 : list rule) (w : string) :
  first_match (rs1 ++ rs2) w =
  match first_match rs1 w with
  | Some out => Some out
  | None => first_match rs2 w
  end.
Proof.
  induction rs1 as [|r rs1 IH]; simpl; [done|].
  destruct (r w); [done|]. apply IH.
Qed.

Lemma prefix_cons_inv (a : ascii) (p s : string) :
  String.prefix (String a p) s = true →
  ∃ r, s = String a r ∧ String.prefix p r = true.
Proof.
  destruct s as [|b r]; simpl; [discriminate|].
  destruct (ascii_dec a b) as [->|]; [eauto | discriminate].
Qed.

(** A word that ends in "ing" has its last three letters known. *)
Lemma endswith_ing_rev (w : string) :
  endswith w "ing" = true →
  ∃ r, String.rev w = String "g" (String "n" (String "i" r)).
Proof.
  unfold endswith. change (String.rev "ing") with "gni".
  intros (r1 & -> & (r2 & -> & (r3 & -> & _)%prefix_cons_inv)%prefix_cons_inv)%prefix_cons_inv.
  eauto.
Qed.

(** No rule placed after the [-ing] rule applies to such a word: each
    of their suffixes ends in another letter. *)
Lemma rules_after_ing_silent (w : string) :
  endswith w "ing" = true → first_match rules_after_ing w = None.
Proof.
  intros [r Hr]%endswith_ing_rev.
  unfold rules_after_ing, first_match, guarded_rule, suffix_rule,
    rule_ed, rule_es, rule_s, endswith.
  rewrite Hr. reflexivity.
Qed.

End StemmerFacts.

Module StemmerClaims.
Import Py Stemmer StemmerFacts AsStated.

(** C3, as stated, fails: "going" has length 5, ends in "ing", is left
    alone by every earlier rule, and is returned unchanged instead of
    being cut to "go". *)
Lemma going_keeps_its_suffix : ¬ ing_always_stripped "going".
Proof.
  intros H.
  assert (stem "going" = ing_stripped "going") as E.
  { apply H; [vm_compute; lia | reflexivity | reflexivity]. }
  vm_compute in E. discriminate E.
Qed.

(** C3, amended: for a word longer than 4 letters that ends in "ing"
    and that no earlier rule rewrites, [stem] drops the last letter of
    the base when the base ends in a doubled letter, returns the base
    when it has more than 2 letters, and otherwise (a 5-letter word
    whose 2-letter base is not a doubled letter) returns the word
    unchanged. *)
Theorem stem_ing_rule (w : string) :
  4 < len w → endswith w "ing" = true →
  first_match rules_before_ing w = None →
  stem w =
    let base := drop_last 3 w in
    if ends_doubled base then drop_last 1 base
    else if 2 <? len base then base
    else w.
Proof.
  intros Hlen Hing Hbefore. unfold stem, stem_rules.
  destruct (Nat.leb_spec (len w) 3) as [?|_]; [lia|].
  rewrite first_match_app, Hbefore.
  change (first_match (rule_ing :: rules_after_ing) w)
    with (match rule_ing w with
          | Some out => Some out
          | None => first_match rules_after_ing w
          end).
  unfold rule_ing. rewrite Hing.
  destruct (Nat.ltb_spec 4 (len w)) as [_|?]; [|lia]. cbn [andb].
  destruct (ends_doubled (drop_last 3 w)); [done|].
  destruct (2 <? len (drop_last 3 w)); [done|].
  by rewrite rules_after_ing_silent.
Qed.

Lemma stem_ing_rule_witness :
  stem "going" = "going" ∧ stem "running" = "run" ∧ stem "sending" = "send".
Proof.
  split; [|split].
  - apply (stem_ing_rule "going"); [vm_compute; lia | reflexivity | reflexivity].
  - apply (stem_ing_rule "running"); [vm_compute; lia | reflexivity | reflexivity].
  - apply (stem_ing_rule "sending"); [vm_compute; lia | reflexivity | reflexivity].
Defined.

(** C9: the fidelity vector of the stemmer, and words of at most 3
    letters are returned unchanged. *)
Theorem stem_fidelity :
  stem "running" = "run" ∧ stem "searching" = "search" ∧
  stem "applied" = "apply" ∧ stem "stopped" = "stop" ∧
  stem "cat" = "cat" ∧
  ∀ w, len w ≤ 3 → stem w = w.
Proof.
  repeat split; try reflexivity.
  intros w Hw. unfold stem.
  by destruct (Nat.leb_spec (len w) 3) as [_|?]; [|lia].
Qed.

Lemma stem_fidelity_witness : stem "is" = "is".
Proof.
  destruct stem_fidelity as (_ & _ & _ & _ & _ & Hshort).
  apply (Hshort "is"). vm_compute. lia.
Defined.

End StemmerClaims.

(** ** Lists, filters and the stable sort *)

Module SortFacts.
Import Score Ranker.



Lemma filter_fmap {A B} (f : A → B) (p : B → bool) (l : list A) :
  List.filter p (f <$> l) = f <$> List.filter (p ∘ f) l.
Proof.
  induction l as [|x l IH]; [done|]. cbn.
  destruct (p (f x)); cbn; by rewrite IH.
Qed.

Lemma filter_sublist {A} (p : A → bool) (l : list A) :
  List.filter p l `sublist_of` l.
Proof.
  induction l as [|x l IH]; [constructor|]. cbn.
  destruct (p x); by constructor.
Qed.

Lemma elem_of_bool_filter {A} (p : A → bool) (l : list A) (x : A) :
  x ∈ List.filter p l ↔ x ∈ l ∧ p x = true.
Proof. rewrite !list_elem_of_In. apply filter_In. Qed.

Section Sort.
Context {A : Type} (key : A → Q).




End Sort.



End SortFacts.

(** ** The stages of the engine *)

Module EngineFacts.
Import Py Text Tokenizer Score Ranker SortFacts.

(** *** Stage 2 *)


Lemma boost_from_returns (i : nat) (entries : list entry) (raw : list Q)
    (q : list string) :
  i + length entries ≤ length raw → is_Some (boost_from i entries raw q).
Proof.
  revert i. induction entries as [|e es IH]; intros i Hlen; cbn; [by eexists|].
  cbn in Hlen.
  destruct (lookup_lt_is_Some_2 raw i) as [r ->]; [lia|]. cbn.
  destruct (IH (S i)) as [rest ->]; [lia|]. by eexists.
Qed.

Lemma boost_term_bonus (e : entry) (score : Q) (term : string) :
  boost_term e score term == score + term_bonus e term.
Proof.
  unfold boost_term, term_bonus.
  destruct (tag_match e term), (id_match e term); lra.
Qed.

Lemma boost_entry_sum (q : list string) (raw : Q) (e : entry) :
  boost_entry q raw e == raw + Qsum (term_bonus e <$> q).
Proof.
  unfold boost_entry. revert raw.
  induction q as [|term q IH]; intros raw.
  { cbn. lra. }
  cbn [fold_left]. rewrite IH, boost_term_bonus.
  change (Qsum (term_bonus e <$> term :: q))
    with (term_bonus e term + Qsum (term_bonus e <$> q))%Q.
  lra.
Qed.

(** *** Stage 3 *)






Lemma key_add_links (s : Q) (targets : list string) (m : gmap string Q)
    (lid : string) :
  is_Some (fold_left (add_link s) targets m !! lid) ↔
  is_Some (m !! lid) ∨ lid ∈ targets.
Proof.
  revert m. induction targets as [|t ts IH]; intros m; cbn [fold_left].
  { rewrite elem_of_nil. tauto. }
  rewrite IH, elem_of_cons. unfold add_link.
  destruct (decide (t = lid)) as [->|Hne].
  - rewrite lookup_insert_eq. split; [auto | intros _; left; by eexists].
  - rewrite lookup_insert_ne by done. split; [tauto|].
    intros [?|[?|?]]; [tauto | congruence | tauto].
Qed.

(** The keys of the pool are the targets of the entries with a
    positive score. *)
Lemma key_fold (boosted : list scored) (m : gmap string Q) (lid : string) :
  is_Some (fold_left propagate_entry boosted m !! lid) ↔
  is_Some (m !! lid) ∨
  ∃ se, se ∈ boosted ∧ (0 < se.1)%Q ∧ lid ∈ link_targets se.2.
Proof.
  revert m. induction boosted as [|se l IH]; intros m; cbn [fold_left].
  { split; [auto|]. intros [?|(se & []%elem_of_nil & _)]; done. }
  rewrite IH. unfold propagate_entry.
  destruct (Qle_bool se.1 0) eqn:E.
  - apply Qle_bool_iff in E. split.
    + intros [?|(se' & ? & ? & ?)]; [by left|].
      right. exists se'. by rewrite elem_of_cons; auto.
    + intros [?|(se' & [->|?]%elem_of_cons & Hpos & ?)]; [by left| |].
      * exfalso. apply (Qlt_not_le _ _ Hpos E).
      * right. by exists se'.
  - assert (0 < se.1)%Q as Hpos.
    { apply Qnot_le_lt. rewrite <- Qle_bool_iff. congruence. }
    rewrite key_add_links. split.
    + intros [[?|?]|(se' & ? & ? & ?)]; [by left| |].
      * right. exists se. by rewrite elem_of_cons; auto.
      * right. exists se'. by rewrite elem_of_cons; auto.
    + intros [?|(se' & [->|?]%elem_of_cons & ? & ?)]; [tauto|tauto|].
      right. by exists se'.
Qed.

Lemma elem_of_link_targets (e : entry) (lid : string) :
  lid ∈ link_targets e ↔
  is_empty (get e "links" EmptyString) = false ∧
  startswith (get e "links" EmptyString) "_" = false ∧
  is_empty lid = false ∧
  ∃ piece, piece ∈ re_split_links (get e "links" EmptyString) ∧
           lid = strip piece.
Proof.
  unfold link_targets, linked_ids.
  destruct (is_empty _) eqn:E1; cbn [orb].
  { rewrite elem_of_nil. split; [done | intros [? _]; done]. }
  destruct (startswith _ _) eqn:E2.
  { rewrite elem_of_nil. split; [done | intros (_ & ? & _); done]. }
  rewrite elem_of_bool_filter, list_elem_of_fmap, negb_true_iff.
  split.
  - intros [(piece & -> & ?) ?]. repeat split; eauto.
  - intros (_ & _ & ? & piece & ? & ->). split; eauto.
Qed.

(** *** Stage 4 *)







(** *** The engine as a whole *)

Section Engine.
Context (BM25 : Type)
        (BM25Okapi : list (list string) → Q → Q → option BM25)
        (get_scores : BM25 → list string → list Q).


(** The engine returns whenever the index can be built and scores
    every document. *)
Lemma engine_returns (entries : list entry) (q : list string) (bm25 : BM25) :
  build_bm25_index BM25 BM25Okapi entries = Some bm25 →
  (∀ toks, length entries ≤ length (get_scores bm25 toks)) →
  is_Some (score_entries_bm25 BM25 BM25Okapi get_scores entries q).
Proof.
  intros Hb Hlen. unfold score_entries_bm25. rewrite Hb. cbn.
  destruct (tokenize (join " " q)) as [|t ts]; [by eexists|].
  unfold structural_boosts.
  destruct (boost_from_returns 0 entries (get_scores bm25 (t :: ts)) q)
    as [boosted ->]; [apply Hlen|].
  by eexists.
Qed.
End Engine.

End EngineFacts.

(** ** The claims about the engine *)

Module EngineClaims.
Import Py Text Tokenizer Score Ranker SortFacts EngineFacts AsStated Sample.

(** Settles [x = y] by evaluating both sides on the virtual machine;
    unlike [vm_compute; reflexivity] it leaves no normal form of an
    entry (a finite map) in the proof. *)
Local Ltac evaluate :=
  lazymatch goal with
  | |- ?x = ?y => exact (eq_refl x <: x = y)
  end.

(** C1: on an empty corpus the engine first builds the index, and then
    returns the empty list: its outcome is the empty list exactly when
    the constructor of the index accepts an empty corpus, and the
    constructor's exception otherwise, whatever the query. *)
Theorem empty_corpus_result (BM25 : Type)
    (BM25Okapi : list (list string) → Q → Q → option BM25)
    (get_scores : BM25 → list string → list Q) (q : list string) :
  score_entries_bm25 BM25 BM25Okapi get_scores [] q =
  match BM25Okapi [] K1 B with
  | Some _ => Some []
  | None => None
  end.
Proof.
  unfold score_entries_bm25, build_bm25_index. cbn.
  destruct (BM25Okapi [] K1 B) as [bm25|]; [|done]. cbn.
  by destruct (tokenize (join " " q)).
Qed.

(** C4, as stated, fails: in the links field "LEARN-002, _none" the
    piece "_none" is kept as a target. *)
Lemma underscore_piece_is_target : ¬ underscore_never_target entry_c.
Proof.
  intros H. specialize (H "_none").
  assert (link_targets entry_c = ["LEARN-002"; "_none"]) as E
    by (vm_compute; reflexivity).
  rewrite E, !elem_of_cons in H. discriminate H. auto.
Qed.

(** C4, amended: the ids that receive propagated score are exactly the
    trimmed, non-empty pieces, cut at runs of commas and semicolons, of
    the links fields of the entries with a positive score, where a
    links field that is empty or itself starts with an underscore gives
    no target at all; a piece is not tested for an underscore. *)
Theorem propagation_targets (boosted : list scored) (lid : string) :
  is_Some (link_propagation boosted !! lid) ↔
  ∃ se, se ∈ boosted ∧ (0 < se.1)%Q ∧
    is_empty (get se.2 "links" EmptyString) = false ∧
    startswith (get se.2 "links" EmptyString) "_" = false ∧
    is_empty lid = false ∧
    ∃ piece, piece ∈ re_split_links (get se.2 "links" EmptyString) ∧
             lid = strip piece.
Proof.
  unfold link_propagation. rewrite key_fold, lookup_empty. split.
  - intros [[? [=]]|(se & ? & ? & Ht)]. exists se.
    by apply elem_of_link_targets in Ht.
  - intros (se & ? & ? & Ht). right. exists se.
    by rewrite elem_of_link_targets.
Qed.

Lemma propagation_targets_witness :
  is_Some (link_propagation [(1%Q, entry_c)] !! "_none").
Proof.
  apply (propagation_targets [(1%Q, entry_c)] "_none").
  exists (1%Q, entry_c). split; [rewrite elem_of_cons; by left|].
  split; [reflexivity|]. split; [reflexivity|]. split; [reflexivity|].
  split; [reflexivity|]. exists " _none". split; [|reflexivity].
  assert (re_split_links (get (1%Q, entry_c).2 "links" EmptyString)
          = ["LEARN-002"; " _none"]) as -> by (vm_compute; reflexivity).
  rewrite !elem_of_cons. auto.
Defined.

Section Engine.
Context (BM25 : Type)
        (BM25Okapi : list (list string) → Q → Q → option BM25)
        (get_scores : BM25 → list string → list Q).

Local Abbreviation rank := (score_entries_bm25 BM25 BM25Okapi get_scores).



End Engine.

(** *** The theorems at concrete corpora, with the term-count index *)

Local Abbreviation run := (score_entries_bm25 TermCount.index TermCount.make
                         TermCount.get_scores).



End EngineClaims.


(** * Further properties of the code *)

(** ** Strings as lists of characters *)

Module StringFacts.
Import Py Text.

Lemma append_cons (c : ascii) (a b : string) :
  String c a +:+ b = String c (a +:+ b).
Proof. reflexivity. Qed.

Lemma append_nil_l (b : string) : EmptyString +:+ b = b.
Proof. reflexivity. Qed.

Lemma chars_append (a b : string) :
  list_ascii_of_string (a +:+ b)
  = list_ascii_of_string a ++ list_ascii_of_string b.
Proof. induction a as [|c a IH]; [done|]. rewrite append_cons. cbn. by rewrite IH. Qed.

Lemma chars_inj (a b : string) :
  list_ascii_of_string a = list_ascii_of_string b → a = b.
Proof.
  intros H. rewrite <- (string_of_list_ascii_of_string a),
    <- (string_of_list_ascii_of_string b). by rewrite H.
Qed.

Lemma len_chars (s : string) : length (list_ascii_of_string s) = len s.
Proof. induction s as [|c s IH]; [done|]. cbn. by rewrite IH. Qed.

Lemma len_append (a b : string) : len (a +:+ b) = len a + len b.
Proof. by rewrite <- !len_chars, chars_append, length_app. Qed.

Lemma chars_rev_app (s acc : string) :
  list_ascii_of_string (String.rev_app s acc)
  = reverse (list_ascii_of_string s) ++ list_ascii_of_string acc.
Proof.
  revert acc. induction s as [|c s IH]; intros acc; [done|].
  cbn [String.rev_app list_ascii_of_string].
  rewrite IH, reverse_cons, <- app_assoc. done.
Qed.

Lemma chars_rev (s : string) :
  list_ascii_of_string (String.rev s) = reverse (list_ascii_of_string s).
Proof. unfold String.rev. by rewrite chars_rev_app, app_nil_r. Qed.

Lemma rev_involutive (s : string) : String.rev (String.rev s) = s.
Proof. apply chars_inj. by rewrite !chars_rev, reverse_involutive. Qed.

Lemma len_rev (s : string) : len (String.rev s) = len s.
Proof. by rewrite <- !len_chars, chars_rev, length_reverse. Qed.

Lemma prefix_chars (p s : string) :
  String.prefix p s = true ↔
  ∃ k, list_ascii_of_string s = list_ascii_of_string p ++ k.
Proof.
  revert s. induction p as [|a p IH]; intros s.
  { destruct s; cbn; split; eauto. }
  destruct s as [|b s]; cbn.
  { split; [done | intros [k [=]]]. }
  destruct (ascii_dec a b) as [->|Hne].
  - rewrite IH. split; intros [k Hk]; exists k; [by rewrite Hk | by injection Hk].
  - split; [done | intros [k [= ? _]]; done].
Qed.

(** [s.endswith(suf)] holds exactly when [s] is something followed by
    [suf]. *)
Lemma endswith_chars (s suf : string) :
  endswith s suf = true ↔
  ∃ k, list_ascii_of_string s = k ++ list_ascii_of_string suf.
Proof.
  unfold endswith. rewrite prefix_chars, !chars_rev. split.
  - intros [k Hk]. exists (reverse k).
    apply (inj reverse). by rewrite Hk, reverse_app, reverse_involutive.
  - intros [k Hk]. exists (reverse k). by rewrite Hk, reverse_app.
Qed.

Lemma endswith_len (s suf : string) :
  endswith s suf = true → len suf ≤ len s.
Proof.
  intros [k Hk]%endswith_chars. rewrite <- !len_chars, Hk, length_app. lia.
Qed.

Lemma endswith_same_len (s suf : string) :
  endswith s suf = true → len s = len suf → s = suf.
Proof.
  intros [k Hk]%endswith_chars Hlen. apply chars_inj.
  rewrite <- !len_chars, Hk, length_app in Hlen.
  destruct k; [done | cbn in Hlen; lia].
Qed.

Lemma chars_substring_0 (m : nat) (s : string) :
  list_ascii_of_string (String.substring 0 m s)
  = take m (list_ascii_of_string s).
Proof.
  revert m. induction s as [|c s IH]; intros [|m]; cbn; try done.
  by rewrite IH.
Qed.

(** [s[:-n]] keeps the first [len(s) - n] characters. *)
Lemma chars_drop_last (n : nat) (s : string) :
  list_ascii_of_string (drop_last n s)
  = take (len s - n) (list_ascii_of_string s).
Proof. apply chars_substring_0. Qed.

Lemma len_drop_last (n : nat) (s : string) : len (drop_last n s) = len s - n.
Proof. rewrite <- !len_chars, chars_drop_last, length_take, len_chars. lia. Qed.

Lemma len_0 (s : string) : len s = 0 → s = EmptyString.
Proof. by destruct s. Qed.

End StringFacts.

(** ** The stemmer: lengths *)

Module StemmerExtra.
Import Py Stemmer StringFacts.

Lemma first_match_Some (rs : list rule) (w out : string) :
  first_match rs w = Some out → ∃ r, r ∈ rs ∧ r w = Some out.
Proof.
  induction rs as [|r rs IH]; cbn; [done|].
  destruct (r w) as [o|] eqn:E.
  - intros [= ->]. exists r. split; [apply elem_of_cons; by left | done].
  - intros (r' & ? & ?)%IH. exists r'. split; [apply elem_of_cons; by right | done].
Qed.

Lemma ends_doubled_len (base : string) :
  ends_doubled base = true → 2 ≤ len base.
Proof. unfold ends_doubled. intros [H _]%andb_true_iff. by apply Nat.leb_le. Qed.

(** Splits the hypothesis [H : rule w = Some out] into the branch
    taken, with the facts on lengths that the tests give. *)
Local Ltac rule_branches H :=
  cbv zeta in H;
  repeat match type of H with
         | context [if ?c then _ else _] => destruct c eqn:?
         end;
  simplify_eq;
  repeat match goal with
         | E : _ && _ = true |- _ => apply andb_true_iff in E as [? ?]
         | E : (_ <? _) = true |- _ => apply Nat.ltb_lt in E
         | E : ends_doubled _ = true |- _ => apply ends_doubled_len in E
         | E : endswith ?a ?b = true |- _ =>
             lazymatch goal with
             | _ : len b ≤ len a |- _ => fail
             | _ => pose proof (endswith_len _ _ E)
             end
         end.

Local Ltac lengths :=
  rewrite ?len_append, ?len_drop_last in *;
  unfold len in *; cbn [String.length] in *.

(** Every rule of the table returns a word that is no longer than its
    input, and an empty word only for "less". *)
Lemma rules_shorten :
  Forall (λ r : rule, ∀ w out, r w = Some out →
            len out ≤ len w ∧ (out = EmptyString → w = "less"))
         stem_rules.
Proof.
  unfold stem_rules, rules_before_ing, rules_after_ing. cbn [app].
  repeat apply Forall_cons_2; [..|apply Forall_nil_2];
    intros w out H;
    unfold suffix_rule, guarded_rule, rule_ling, rule_ting, rule_ing,
      rule_ed, rule_es, rule_s in H;
    rule_branches H;
    (split;
     [ lengths; lia
     | intros Hout; apply (f_equal len) in Hout;
       first [ exfalso; lengths; lia
             | apply endswith_same_len; [assumption | lengths; lia] ] ]).
Qed.

(** X1. [stem] never returns a word longer than its argument. *)
Theorem stem_never_longer (w : string) : len (stem w) ≤ len w.
Proof.
  unfold stem. destruct (len w <=? 3); [done|].
  destruct (first_match stem_rules w) as [out|] eqn:E; cbn; [|done].
  apply first_match_Some in E as (r & Hr & Hout).
  pose proof rules_shorten as Hall. rewrite Forall_forall in Hall.
  by destruct (Hall r Hr w out Hout).
Qed.

(** X2. The only words with an empty stem are the empty word and
    "less": the rule for the suffix "less" has no guard on the length,
    so [stem] cuts "less" down to nothing. *)
Theorem stem_empty_iff (w : string) :
  stem w = EmptyString ↔ w = EmptyString ∨ w = "less".
Proof.
  split; [|by intros [->| ->]].
  unfold stem. destruct (Nat.leb_spec (len w) 3) as [_|Hlen]; [by left|].
  destruct (first_match stem_rules w) as [out|] eqn:E; cbn.
  - intros ->. apply first_match_Some in E as (r & Hr & Hout).
    pose proof rules_shorten as Hall. rewrite Forall_forall in Hall.
    destruct (Hall r Hr w EmptyString Hout) as [_ Hless]. right. by apply Hless.
  - intros ->. cbn in Hlen. lia.
Qed.

End StemmerExtra.

(** ** The tokenizer and the document builder: composition *)

Module TokenizerExtra.
Import Py Text Stemmer Tokenizer Score Ranker StringFacts.

Lemma lower_append (a b : string) : lower (a +:+ b) = lower a +:+ lower b.
Proof.
  induction a as [|c a IH]; [done|].
  rewrite append_cons. cbn [lower]. by rewrite IH, append_cons.
Qed.

(** A character that cannot be part of a word ends the word being read
    and starts a fresh scan. *)
Lemma findall_go_break (cur : option string) (a : string) (c : ascii)
    (b : string) :
  is_word_char c = false →
  findall_go cur (a +:+ String c b) = findall_go cur a ++ findall_go None b.
Proof.
  intros Hc.
  assert (is_alnum c = false) as Hc'.
  { unfold is_word_char in Hc. by apply orb_false_iff in Hc as [? _]. }
  revert cur. induction a as [|x a IH]; intros cur.
  - rewrite append_nil_l. cbn [findall_go].
    destruct cur as [tok|]; [by rewrite Hc | by rewrite Hc'].
  - rewrite append_cons. cbn [findall_go]. destruct cur as [tok|].
    + destruct (is_word_char x); [apply IH|]. by rewrite IH.
    + destruct (is_alnum x); apply IH.
Qed.

Lemma tokenize_space (a b : string) :
  tokenize (a +:+ " " +:+ b) = tokenize a ++ tokenize b.
Proof.
  unfold tokenize, findall_words.
  rewrite !lower_append.
  change (lower " " +:+ lower b) with (String " " (lower b)).
  rewrite findall_go_break by done.
  by rewrite bind_app, List.filter_app, fmap_app.
Qed.

(** Tokenizing fields joined by single spaces gives the tokens of the
    first field, then those of the second, and so on: no token straddles
    two fields. *)
Lemma tokenize_join (parts : list string) :
  tokenize (join " " parts) = parts ≫= tokenize.
Proof.
  induction parts as [|p ps IH]; [done|].
  destruct ps as [|p' ps].
  - cbn. by rewrite app_nil_r.
  - change (join " " (p :: p' :: ps)) with (p +:+ " " +:+ join " " (p' :: ps)).
    by rewrite tokenize_space, IH.
Qed.

(** X3. The document of an entry is five copies of the tokens of its
    tags, four copies of the tokens of its id, then the tokens of its
    summary, type, file and known issues; the fields [links], [raw] and
    [interface] contribute nothing. *)
Theorem entry_to_corpus_doc_fields (e : entry) :
  entry_to_corpus_doc e =
    mjoin (replicate 5 (tokenize (get e "tags" EmptyString)))
    ++ mjoin (replicate 4 (tokenize (get e "id" EmptyString)))
    ++ tokenize (get e "summary" EmptyString)
    ++ tokenize (get e "type" EmptyString)
    ++ tokenize (get e "file" EmptyString)
    ++ tokenize (get e "known_issues" EmptyString).
Proof.
  unfold entry_to_corpus_doc. rewrite tokenize_join. cbn.
  by rewrite !app_nil_r, <- !app_assoc.
Qed.

Lemma stopwords_no_token : Forall (λ w, tokenize w = []) STOPWORDS.
Proof.
  apply Forall_forall. intros w Hw.
  assert (forallb (λ w, bool_decide (tokenize w = [])) STOPWORDS = true) as H
    by (vm_compute; reflexivity).
  rewrite forallb_forall in H. eapply bool_decide_eq_true_1, H.
  by apply list_elem_of_In.
Qed.

(** X4. A query whose terms all tokenize to nothing (stopwords, single
    characters, punctuation; the empty query too) gets the empty result
    from every corpus on which the index can be built, also when a term
    is an exact tag or part of an id: the early return comes before the
    structural boosts. *)
Theorem tokenless_query_no_result (BM25 : Type)
    (BM25Okapi : list (list string) → Q → Q → option BM25)
    (get_scores : BM25 → list string → list Q)
    (entries : list entry) (q : list string) :
  Forall (λ t, t ∈ STOPWORDS ∨ len t ≤ 1 ∨ tokenize t = []) q →
  score_entries_bm25 BM25 BM25Okapi get_scores entries q =
  match build_bm25_index BM25 BM25Okapi entries with
  | Some _ => Some []
  | None => None
  end.
Proof.
  intros Hq. unfold score_entries_bm25.
  destruct (build_bm25_index _ _ entries) as [bm25|]; [|done]. cbn.
  assert (tokenize (join " " q) = []) as ->; [|done].
  rewrite tokenize_join. induction Hq as [|t q Ht _ IH]; [done|].
  cbn. rewrite IH, app_nil_r.
  destruct Ht as [Ht|[Ht|Ht]]; [|clear IH|done].
  - pose proof stopwords_no_token as H. rewrite Forall_forall in H. by apply H.
  - destruct t as [|c [|c' t]]; [done| |cbn in Ht; lia].
    by destruct c as [[] [] [] [] [] [] [] []].
Qed.

End TokenizerExtra.

(** ** The engine: failures, and what propagation cannot do *)

Module EngineExtra.
Import Py Text Tokenizer Score Ranker SortFacts EngineFacts StringFacts.




Section Engine.
Context (BM25 : Type)
        (BM25Okapi : list (list string) → Q → Q → option BM25)
        (get_scores : BM25 → list string → list Q).

Local Abbreviation rank := (score_entries_bm25 BM25 BM25Okapi get_scores).


Lemma boost_from_None (i : nat) (entries : list entry) (raw : list Q)
    (q : list string) :
  boost_from i entries raw q = None ↔
  entries ≠ [] ∧ length raw < i + length entries.
Proof.
  split.
  - intros Hnone. split; [by intros ->|].
    destruct (Nat.lt_ge_cases (length raw) (i + length entries))
      as [?|Hge]; [done|].
    destruct (boost_from_returns i entries raw q Hge) as [? Hsome]. congruence.
  - intros [Hne Hlen]. revert i Hlen.
    induction entries as [|e es IH]; intros i Hlen; [done|]. cbn in *.
    destruct (raw !! i) as [r|] eqn:Hr; [|done]. cbn.
    apply lookup_lt_Some in Hr. rewrite IH; [done| |lia].
    intros ->. cbn in Hlen. lia.
Qed.

(** X7. The engine fails in two cases only: the constructor of the
    index raises, or the query has tokens and [get_scores] returns fewer
    scores than there are entries (the IndexError of [raw_scores[i]]). *)
Theorem engine_failure (entries : list entry) (q : list string) :
  rank entries q = None ↔
  build_bm25_index BM25 BM25Okapi entries = None ∨
  ∃ bm25, build_bm25_index BM25 BM25Okapi entries = Some bm25 ∧
          tokenize (join " " q) ≠ [] ∧
          length (get_scores bm25 (tokenize (join " " q))) < length entries.
Proof.
  unfold score_entries_bm25.
  destruct (build_bm25_index _ _ entries) as [bm25|]; cbn; [|by split; auto].
  destruct (tokenize (join " " q)) as [|t ts] eqn:Htok.
  { split; [done|]. intros [?|(? & _ & ? & _)]; done. }
  unfold structural_boosts.
  destruct (boost_from 0 entries _ q) as [boosted|] eqn:Hb; cbn.
  - split; [done|]. intros [?|(bm & [= <-] & _ & Hlen)]; [done|].
    assert (boost_from 0 entries (get_scores bm25 (t :: ts)) q = None) as Hn.
    { apply boost_from_None. split; [|done]. intros ->. cbn in Hlen. lia. }
    congruence.
  - split; [|done]. intros _. right. exists bm25.
    split; [done|]. split; [done|]. by apply boost_from_None in Hb as [_ ?].
Qed.
End Engine.

End EngineExtra.

(** ** Stripping *)

Module TrimFacts.
Import Py Text Cli Trim StringFacts.

Lemma lstrip_is_by (s : string) : lstrip s = lstrip_by is_space s.
Proof. induction s as [|c s IH]; [done|]. cbn. by rewrite IH. Qed.

Lemma strip_is_by (s : string) : strip s = strip_by is_space s.
Proof. unfold strip, strip_by. by rewrite !lstrip_is_by. Qed.

Lemma lstrip_char_is_by (ch : ascii) (s : string) :
  lstrip_char ch s = lstrip_by (λ c, bool_decide (c = ch)) s.
Proof. induction s as [|c s IH]; [done|]. cbn. by rewrite IH. Qed.

Lemma strip_char_is_by (ch : ascii) (s : string) :
  strip_char ch s = strip_by (λ c, bool_decide (c = ch)) s.
Proof. unfold strip_char, strip_by. by rewrite !lstrip_char_is_by. Qed.

Section Class.
Context (p : ascii → bool).

Lemma lstrip_by_suffix (s : string) :
  ∃ k, list_ascii_of_string s = k ++ list_ascii_of_string (lstrip_by p s).
Proof.
  induction s as [|c s [k IH]]; [by exists []|]. cbn.
  destruct (p c); [|by exists []].
  exists (c :: k). by rewrite IH.
Qed.

Lemma lstrip_by_head (s : string) (c : ascii) :
  head (list_ascii_of_string (lstrip_by p s)) = Some c → p c = false.
Proof.
  induction s as [|x s IH]; [done|]. cbn.
  destruct (p x) eqn:E; [done|]. cbn. by intros [= <-].
Qed.

Lemma lstrip_by_id (s : string) :
  (∀ c, head (list_ascii_of_string s) = Some c → p c = false) →
  lstrip_by p s = s.
Proof. destruct s as [|c s]; [done|]. cbn. intros H. by rewrite H. Qed.

(** What [strip] returns is a piece of its argument. *)
Lemma strip_by_infix (s : string) :
  ∃ a b, list_ascii_of_string s
         = a ++ list_ascii_of_string (strip_by p s) ++ b.
Proof.
  unfold strip_by.
  destruct (lstrip_by_suffix s) as [a Ha].
  destruct (lstrip_by_suffix (String.rev (lstrip_by p s))) as [k Hk].
  exists a, (reverse k). rewrite Ha. f_equal.
  rewrite chars_rev in *. apply (inj reverse).
  by rewrite Hk, reverse_app, !reverse_involutive.
Qed.

Lemma strip_by_last (s : string) (c : ascii) :
  last (list_ascii_of_string (strip_by p s)) = Some c → p c = false.
Proof.
  unfold strip_by. rewrite chars_rev, last_reverse. apply lstrip_by_head.
Qed.

Lemma strip_by_head (s : string) (c : ascii) :
  head (list_ascii_of_string (strip_by p s)) = Some c → p c = false.
Proof.
  unfold strip_by. rewrite chars_rev, head_reverse.
  destruct (lstrip_by_suffix (String.rev (lstrip_by p s))) as [k Hk].
  intros Hlast.
  assert (last (list_ascii_of_string (String.rev (lstrip_by p s))) = Some c)
    as Hl.
  { rewrite Hk. apply last_app_Some. by left. }
  rewrite chars_rev, last_reverse in Hl. by apply lstrip_by_head in Hl.
Qed.

Lemma strip_by_id (s : string) :
  (∀ c, head (list_ascii_of_string s) = Some c → p c = false) →
  (∀ c, last (list_ascii_of_string s) = Some c → p c = false) →
  strip_by p s = s.
Proof.
  intros Hh Hl. unfold strip_by. rewrite (lstrip_by_id s Hh).
  rewrite lstrip_by_id; [apply rev_involutive|].
  intros c. rewrite chars_rev, head_reverse. apply Hl.
Qed.

Lemma strip_by_idem (s : string) : strip_by p (strip_by p s) = strip_by p s.
Proof. apply strip_by_id; [apply strip_by_head | apply strip_by_last]. Qed.

Lemma strip_by_clean (s : string) :
  (∀ c, c ∈ list_ascii_of_string s → p c = false) → strip_by p s = s.
Proof.
  intros H. apply strip_by_id; intros c Hc; apply H.
  - by apply head_Some_elem_of.
  - by apply last_Some_elem_of.
Qed.

Lemma strip_by_elem_of (s : string) (c : ascii) :
  c ∈ list_ascii_of_string (strip_by p s) → c ∈ list_ascii_of_string s.
Proof.
  destruct (strip_by_infix s) as (a & b & ->). intros Hc.
  apply elem_of_app. right. apply elem_of_app. by left.
Qed.
End Class.

End TrimFacts.

(** ** Splitting at runs of separators *)

Module SplitFacts.
Import Py Text Tokenizer Ranker Cli Trim StringFacts TrimFacts EngineFacts.

Lemma re_split_go_is_with (in_run : bool) (cur s : string) :
  re_split_go in_run cur s = re_split_with is_link_sep in_run cur s.
Proof.
  revert in_run cur. induction s as [|c s IH]; intros in_run cur; [done|].
  cbn. destruct (is_link_sep c); [destruct in_run|]; by rewrite ?IH.
Qed.

(** No piece holds a separator. *)
Lemma re_split_with_clean (sep : ascii → bool) (in_run : bool) (cur s : string) :
  (∀ c, c ∈ list_ascii_of_string cur → sep c = false) →
  Forall (λ piece, ∀ c, c ∈ list_ascii_of_string piece → sep c = false)
         (re_split_with sep in_run cur s).
Proof.
  revert in_run cur. induction s as [|x s IH]; intros in_run cur Hcur; cbn.
  { constructor; [|constructor]. intros c. rewrite chars_rev, elem_of_reverse.
    apply Hcur. }
  destruct (sep x) eqn:Hx.
  - destruct in_run; [by apply IH|].
    constructor; [|apply IH; by intros c []%elem_of_nil].
    intros c. rewrite chars_rev, elem_of_reverse. apply Hcur.
  - apply IH. intros c. cbn. rewrite elem_of_cons. intros [->|?]; auto.
Qed.

(** X8. A link target is never empty, holds no comma or semicolon, and
    has no white space at either end. *)
Theorem link_targets_clean (e : entry) (lid : string) :
  lid ∈ link_targets e →
  lid ≠ EmptyString ∧
  (∀ c, c ∈ list_ascii_of_string lid → is_link_sep c = false) ∧
  strip lid = lid.
Proof.
  intros (_ & _ & Hne & piece & Hpiece & ->)%elem_of_link_targets.
  split; [by intros Heq; rewrite Heq in Hne|]. split.
  - intros c Hc. rewrite strip_is_by in Hc. apply strip_by_elem_of in Hc.
    unfold re_split_links in Hpiece. rewrite re_split_go_is_with in Hpiece.
    pose proof (re_split_with_clean is_link_sep false EmptyString
                  (get e "links" EmptyString)) as Hall.
    rewrite Forall_forall in Hall. eapply Hall; [|done..].
    by intros ? []%elem_of_nil.
  - rewrite !strip_is_by. apply strip_by_idem.
Qed.

Lemma link_targets_clean_witness :
  "LEARN-002" ≠ EmptyString ∧
  (∀ c, c ∈ list_ascii_of_string "LEARN-002" → is_link_sep c = false) ∧
  strip "LEARN-002" = "LEARN-002".
Proof.
  apply (link_targets_clean Sample.entry_c "LEARN-002").
  replace (link_targets Sample.entry_c) with ["LEARN-002"; "_none"]
    by (vm_compute; reflexivity).
  apply elem_of_cons. by left.
Defined.

End SplitFacts.

(** ** [next_id] *)

Module NextIdFacts.
Import Py Text Cli StringFacts.

Lemma append_assoc (a b c : string) : (a +:+ b) +:+ c = a +:+ b +:+ c.
Proof. apply chars_inj. by rewrite !chars_append, app_assoc. Qed.

Lemma strip_prefix_append (pre x : string) :
  strip_prefix pre (pre +:+ x) = Some x.
Proof.
  induction pre as [|a pre IH]; [done|].
  rewrite append_cons. cbn. by rewrite bool_decide_eq_true_2.
Qed.

Lemma take_digits_all (s : string) :
  Forall (λ c, is_digit c = true) (list_ascii_of_string s) →
  take_digits s = s.
Proof.
  induction s as [|c s IH]; [done|]. cbn.
  intros [Hc Hs]%Forall_cons. by rewrite Hc, IH.
Qed.

Lemma string_of_uint_digits (d : Decimal.uint) :
  Forall (λ c, is_digit c = true)
         (list_ascii_of_string (NilEmpty.string_of_uint d)).
Proof. induction d; cbn; by constructor. Qed.

Lemma zeros_digits (k : nat) :
  Forall (λ c, is_digit c = true) (list_ascii_of_string (zeros k)).
Proof. induction k; cbn; by constructor. Qed.

Lemma format_03d_digits (n : nat) :
  Forall (λ c, is_digit c = true) (list_ascii_of_string (format_03d n)).
Proof.
  unfold format_03d, str_of_nat. rewrite chars_append. apply Forall_app.
  split; [apply zeros_digits | apply string_of_uint_digits].
Qed.

Lemma format_03d_len (n : nat) : 3 ≤ len (format_03d n).
Proof.
  unfold format_03d. rewrite len_append.
  assert (len (zeros (3 - len (str_of_nat n))) = 3 - len (str_of_nat n)) as ->.
  { generalize (3 - len (str_of_nat n)). induction n0; cbn; by f_equal. }
  lia.
Qed.

(** Reading the digits of a decimal numeral gives its value. *)
Lemma fold_digits_uint (d : Decimal.uint) (acc : nat) :
  fold_left (λ n c, 10 * n + (code c - 48))
            (list_ascii_of_string (NilEmpty.string_of_uint d)) acc
  = Nat.of_uint_acc d acc.
Proof.
  revert acc. induction d; intros acc; cbn [NilEmpty.string_of_uint
    list_ascii_of_string fold_left Nat.of_uint_acc]; [done|..];
    rewrite IHd, Nat.tail_mul_spec; f_equal;
    match goal with
    | |- context [code ?c] =>
        let v := eval vm_compute in (code c) in change (code c) with v
    end; lia.
Qed.

Lemma int_of_str (n : nat) : int_of_digits (str_of_nat n) = n.
Proof.
  unfold int_of_digits, str_of_nat. rewrite fold_digits_uint.
  apply DecimalNat.Unsigned.of_to.
Qed.

Lemma fold_digits_zeros (k : nat) (l : list ascii) :
  fold_left (λ n c, 10 * n + (code c - 48))
            (list_ascii_of_string (zeros k) ++ l) 0
  = fold_left (λ n c, 10 * n + (code c - 48)) l 0.
Proof. induction k; [done|]. cbn [zeros list_ascii_of_string app fold_left]. apply IHk. Qed.

(** The number written by [f"{n:03d}"] reads back as [n]. *)
Lemma int_of_format (n : nat) : int_of_digits (format_03d n) = n.
Proof.
  unfold int_of_digits, format_03d. rewrite chars_append, fold_digits_zeros.
  apply int_of_str.
Qed.

Lemma file_number_formatted (file_type : string) (n : nat) :
  file_number file_type (file_type +:+ "-" +:+ format_03d n) = Some n.
Proof.
  unfold file_number, match_number.
  rewrite <- append_assoc, strip_prefix_append. cbn.
  rewrite take_digits_all by apply format_03d_digits.
  assert (is_empty (format_03d n) = false) as ->.
  { pose proof (format_03d_len n) as Hlen.
    destruct (format_03d n); [cbn in Hlen; lia | done]. }
  cbn. by rewrite int_of_format.
Qed.

(** X9. The id that [next_id] returns is the file type, a hyphen and a
    number of at least three digits; the number is positive and greater
    than the number of every existing file of that type, so the id is
    new. *)
Theorem next_id_fresh (existing : list string) (file_type : string) :
  file_type ∈ FILE_TYPE_NAMES →
  ∃ n, next_id existing file_type = file_type +:+ "-" +:+ format_03d n ∧
       file_number file_type (next_id existing file_type) = Some n ∧
       0 < n ∧
       ∀ stem m, stem ∈ existing → file_number file_type stem = Some m →
                 m < n.
Proof.
  intros _. unfold next_id. destruct existing as [|s0 ex].
  { exists 1.
    change (file_type +:+ "-001") with (file_type +:+ "-" +:+ format_03d 1).
    split; [done|]. split; [apply file_number_formatted|].
    split; [lia|]. by intros ? ? []%elem_of_nil. }
  generalize (s0 :: ex). clear s0 ex. intros existing.
  remember (omap (file_number file_type) existing) as numbers eqn:Hnum.
  assert (∀ stem m, stem ∈ existing → file_number file_type stem = Some m →
                    m ∈ numbers) as Hin.
  { intros stem m ? ?. subst numbers. apply list_elem_of_omap. eauto. }
  clear Hnum. destruct numbers as [|k ks].
  - exists 1. split; [done|]. split; [apply file_number_formatted|].
    split; [lia|]. intros stem m Hs Hm.
    by apply Hin, elem_of_nil in Hm.
  - exists (max_list (k :: ks) + 1). split; [done|].
    split; [apply file_number_formatted|]. split; [lia|].
    intros stem m Hs Hm. pose proof (max_list_elem_of_le _ _ (Hin stem m Hs Hm)).
    lia.
Qed.

Lemma next_id_fresh_witness :
  ∃ n, next_id ["LEARN-001_a"; "LEARN-012_b"; "LEARN-x"] "LEARN"
         = "LEARN" +:+ "-" +:+ format_03d n ∧
       file_number "LEARN"
         (next_id ["LEARN-001_a"; "LEARN-012_b"; "LEARN-x"] "LEARN") = Some n ∧
       0 < n ∧
       ∀ stem m, stem ∈ ["LEARN-001_a"; "LEARN-012_b"; "LEARN-x"] →
                 file_number "LEARN" stem = Some m → m < n.
Proof.
  apply (next_id_fresh ["LEARN-001_a"; "LEARN-012_b"; "LEARN-x"] "LEARN").
  apply (bool_decide_eq_true_1 _). reflexivity.
Defined.

End NextIdFacts.

(** ** Slugs *)

Module SlugFacts.
Import Py Text Cli Trim StringFacts TrimFacts.

(** [sub in s] holds exactly when [s] is something, then [sub], then
    something. *)
Lemma contains_chars (sub s : string) :
  contains sub s = true ↔
  ∃ a b, list_ascii_of_string s = a ++ list_ascii_of_string sub ++ b.
Proof.
  induction s as [|c s IH].
  - cbn [contains]. rewrite orb_false_r, prefix_chars. cbn. split.
    + intros [k Hk]. symmetry in Hk. apply app_eq_nil in Hk as [-> ->].
      by exists [], [].
    + intros (a & b & Hab). symmetry in Hab.
      apply app_eq_nil in Hab as [_ [-> _]%app_eq_nil]. by exists [].
  - cbn [contains]. rewrite orb_true_iff, IH, prefix_chars. cbn. split.
    + intros [[k Hk]|(a & b & Hab)].
      * exists [], k. by rewrite Hk.
      * exists (c :: a), b. by rewrite Hab.
    + intros ([|x a] & b & Hab).
      * left. by exists b.
      * right. injection Hab as -> Hab. by exists a, b.
Qed.

Lemma startswith_single (s : string) (ch : ascii) :
  startswith s (String ch EmptyString) = false ↔
  head (list_ascii_of_string s) ≠ Some ch.
Proof.
  unfold startswith. destruct s as [|c s]; cbn; [done|].
  destruct (ascii_dec ch c) as [->|Hne].
  - destruct s; split; (done || by intros []).
  - split; [|done]. intros _ [= ->]. done.
Qed.

Lemma endswith_single (s : string) (ch : ascii) :
  endswith s (String ch EmptyString) = false ↔
  last (list_ascii_of_string s) ≠ Some ch.
Proof.
  unfold endswith. change (String.rev (String ch EmptyString))
    with (String ch EmptyString).
  fold (startswith (String.rev s) (String ch EmptyString)).
  by rewrite startswith_single, chars_rev, head_reverse.
Qed.

Lemma dash_runs_chars (in_run : bool) (s : string) :
  Forall (λ c, is_alnum c = true ∨ c = "-"%char)
         (list_ascii_of_string (dash_runs in_run s)).
Proof.
  revert in_run. induction s as [|c s IH]; intros in_run; cbn; [constructor|].
  destruct (is_alnum c) eqn:E; [constructor; auto|].
  destruct in_run; [apply IH|]. constructor; auto.
Qed.

Lemma dash_runs_no_double (in_run : bool) (s : string) :
  contains "--" (dash_runs in_run s) = false ∧
  (in_run = true → startswith (dash_runs in_run s) "-" = false).
Proof.
  revert in_run. induction s as [|c s IH]; intros in_run; [done|].
  cbn [dash_runs]. destruct (is_alnum c) eqn:E.
  - destruct (IH false) as [Hc _].
    assert (c ≠ "-"%char) as Hne by (intros ->; done).
    unfold startswith. cbn [contains String.prefix]. rewrite Hc.
    destruct (ascii_dec "-" c) as [<-|_]; [done|]. done.
  - destruct in_run; [apply IH|]. destruct (IH true) as [Hc Hs].
    split; [|done]. cbn [contains String.prefix]. rewrite Hc.
    destruct (ascii_dec "-" "-"); [|done].
    unfold startswith in Hs. by rewrite Hs.
Qed.

(** X10. A slug is made of the characters a-z, 0-9 and hyphen only; it
    neither starts nor ends with a hyphen and never has two hyphens in
    a row. *)
Theorem slug_shape (title : string) :
  Forall (λ c, is_alnum c = true ∨ c = "-"%char)
         (list_ascii_of_string (slug title)) ∧
  startswith (slug title) "-" = false ∧
  endswith (slug title) "-" = false ∧
  contains "--" (slug title) = false.
Proof.
  unfold slug. rewrite strip_char_is_by.
  set (d := dash_runs false (lower title)).
  set (p := λ c : ascii, bool_decide (c = "-"%char)).
  split; [|split; [|split]].
  - apply Forall_forall. intros c Hc%strip_by_elem_of.
    pose proof (dash_runs_chars false (lower title)) as H.
    rewrite Forall_forall in H. by apply H.
  - apply startswith_single. intros Hh%strip_by_head.
    by apply bool_decide_eq_false in Hh.
  - apply endswith_single. intros Hl%strip_by_last.
    by apply bool_decide_eq_false in Hl.
  - apply not_true_iff_false. intros (a & b & Hab)%contains_chars.
    destruct (strip_by_infix p d) as (a0 & b0 & Hd).
    destruct (dash_runs_no_double false (lower title)) as [Hno _].
    apply not_true_iff_false in Hno. apply Hno, contains_chars.
    exists (a0 ++ a), (b ++ b0). fold d. rewrite Hd, Hab.
    by rewrite <- !app_assoc.
Qed.

End SlugFacts.

(** ** The query terms of [cmd_search] and [cmd_recall] *)

Module QueryFacts.
Import Py Text Stemmer Tokenizer Ranker Cli Trim StringFacts TrimFacts
       SplitFacts TokenizerExtra.

Lemma space_is_query_sep (c : ascii) :
  is_space c = true → is_query_sep c = true.
Proof. unfold is_query_sep. by intros ->. Qed.

(** A separator of the query is not a word character, also after
    [lower]. *)
Lemma query_sep_breaks (c : ascii) :
  is_query_sep c = true → is_word_char (lower_char c) = false.
Proof. by destruct c as [[] [] [] [] [] [] [] []]. Qed.

Lemma query_sep_lower (c : ascii) :
  is_query_sep c = true → lower_char c = c.
Proof. by destruct c as [[] [] [] [] [] [] [] []]. Qed.

Lemma fmap_fixed {A} (f : A → A) (l : list A) :
  Forall (λ x, f x = x) l → f <$> l = l.
Proof. induction 1 as [|x l Hx _ IH]; [done|]. cbn. by rewrite Hx, IH. Qed.

Lemma pieces_strip (query : string) :
  strip <$> re_split_with is_query_sep false EmptyString query
  = re_split_with is_query_sep false EmptyString query.
Proof.
  pose proof (re_split_with_clean is_query_sep false EmptyString query) as H.
  assert (Forall (λ piece, strip piece = piece)
            (re_split_with is_query_sep false EmptyString query)) as Hid.
  { eapply Forall_impl; [apply H; by intros ? []%elem_of_nil|].
    cbn. intros piece Hpiece. rewrite strip_is_by. apply strip_by_clean.
    intros c Hc. specialize (Hpiece c Hc).
    destruct (is_space c) eqn:E; [|done].
    by rewrite (space_is_query_sep c E) in Hpiece. }
  by apply fmap_fixed.
Qed.

(** X11. Every query term is non-empty, holds no white space and no
    comma. *)
Theorem split_query_terms (query : string) :
  Forall (λ t, t ≠ EmptyString ∧
               ∀ c, c ∈ list_ascii_of_string t → is_query_sep c = false)
         (split_query query).
Proof.
  unfold split_query. rewrite pieces_strip. apply Forall_forall.
  intros t [Ht Hne]%SortFacts.elem_of_bool_filter. split.
  - intros ->. done.
  - pose proof (re_split_with_clean is_query_sep false EmptyString query) as H.
    rewrite Forall_forall in H. apply H; [|done]. by intros ? []%elem_of_nil.
Qed.

Lemma rev_cons_append (c : ascii) (cur s : string) :
  String.rev (String c cur) +:+ s = String.rev cur +:+ String c s.
Proof.
  apply chars_inj. rewrite !chars_append, !chars_rev.
  cbn [list_ascii_of_string]. by rewrite reverse_cons, <- app_assoc.
Qed.

Lemma append_nil_r (s : string) : s +:+ EmptyString = s.
Proof. apply chars_inj. by rewrite chars_append, app_nil_r. Qed.

(** Scanning the pieces one after the other finds the words of the
    whole string. *)
Lemma split_findall (in_run : bool) (cur s : string) :
  (in_run = true → cur = EmptyString) →
  re_split_with is_query_sep in_run cur s ≫= (λ p, findall_words (lower p))
  = findall_words (lower (String.rev cur +:+ s)).
Proof.
  revert in_run cur. induction s as [|c s IH]; intros in_run cur Hrun.
  { cbn. by rewrite app_nil_r, append_nil_r. }
  cbn [re_split_with]. destruct (is_query_sep c) eqn:Hc.
  - assert (findall_words (lower (String.rev cur +:+ String c s))
            = findall_words (lower (String.rev cur))
              ++ findall_words (lower s)) as ->.
    { rewrite lower_append. cbn [lower]. unfold findall_words.
      apply findall_go_break. by apply query_sep_breaks. }
    destruct in_run.
    + rewrite (Hrun eq_refl). rewrite IH by done. done.
    + cbn. by rewrite IH.
  - rewrite IH by done. by rewrite rev_cons_append.
Qed.

Lemma tokenize_bind (pieces : list string) :
  pieces ≫= tokenize
  = stem <$> List.filter keep_token
      ((pieces ≫= λ p, findall_words (lower p)) ≫= expand).
Proof.
  induction pieces as [|p ps IH]; [done|]. cbn.
  rewrite IH. unfold tokenize. by rewrite bind_app, List.filter_app, fmap_app.
Qed.

Lemma bind_tokenize_nonempty (pieces : list string) :
  List.filter (λ t, negb (is_empty t)) pieces ≫= tokenize
  = pieces ≫= tokenize.
Proof.
  induction pieces as [|p ps IH]; [done|]. cbn.
  destruct p; cbn; by rewrite IH.
Qed.

(** X12. Splitting the query into terms and joining the terms again, as
    the engine does, loses nothing: the tokens the index is asked about
    are the tokens of the query string as typed. *)
Theorem split_query_tokens (query : string) :
  tokenize (join " " (split_query query)) = tokenize query.
Proof.
  rewrite tokenize_join. unfold split_query.
  rewrite pieces_strip, bind_tokenize_nonempty, tokenize_bind.
  by rewrite (split_findall false EmptyString query).
Qed.

End QueryFacts.

(** ** The top slice of [cmd_recall] *)

Module RecallFacts.
Import Py Text Tokenizer Score Ranker Cli SortFacts EngineFacts.






End RecallFacts.

(** ** The comparison of two manifests in [cmd_reindex] *)

Module ManifestFacts.
Import Py Text Cli SortFacts.

Lemma has_key_true (m : manifest) (rel : string) :
  has_key m rel = true ↔ rel ∈ m.*1.
Proof. unfold has_key. apply bool_decide_eq_true. Qed.

Lemma has_key_false (m : manifest) (rel : string) :
  has_key m rel = false ↔ rel ∉ m.*1.
Proof. unfold has_key. apply bool_decide_eq_false. Qed.

Lemma elem_of_new_files (old new : manifest) (rel : string) :
  rel ∈ new_files old new ↔ rel ∈ new.*1 ∧ rel ∉ old.*1.
Proof.
  unfold new_files. rewrite list_elem_of_fmap. split.
  - intros ([k i] & -> & [Hin Hk]%elem_of_bool_filter). cbn in *.
    apply negb_true_iff, has_key_false in Hk. split; [|done].
    apply list_elem_of_fmap. by exists (k, i).
  - intros [([k i] & -> & Hin)%list_elem_of_fmap Hold]. exists (k, i).
    split; [done|]. apply elem_of_bool_filter. split; [done|].
    by apply negb_true_iff, has_key_false.
Qed.

Lemma elem_of_changed_files (old new : manifest) (rel : string) :
  rel ∈ changed_files old new ↔
  rel ∈ old.*1 ∧
  ∃ info, (rel, info) ∈ new ∧
          info_hash <$> item old rel ≠ Some (info_hash info).
Proof.
  unfold changed_files. rewrite list_elem_of_fmap. split.
  - intros ([k i] & -> & [Hin Hk]%elem_of_bool_filter). cbn in *.
    apply andb_true_iff in Hk as [Hold Hne].
    apply has_key_true in Hold. apply negb_true_iff, bool_decide_eq_false in Hne.
    split; [done|]. by exists i.
  - intros [Hold (i & Hin & Hne)]. exists (rel, i). split; [done|].
    apply elem_of_bool_filter. split; [done|]. cbn.
    apply andb_true_iff. split; [by apply has_key_true|].
    by apply negb_true_iff, bool_decide_eq_false.
Qed.

Lemma elem_of_deleted_files (old new : manifest) (rel : string) :
  rel ∈ deleted_files old new ↔ rel ∈ old.*1 ∧ rel ∉ new.*1.
Proof.
  unfold deleted_files. rewrite elem_of_bool_filter, negb_true_iff.
  by rewrite has_key_false.
Qed.

Lemma nil_no_elem {A} (l : list A) : l = [] ↔ ∀ x, x ∉ l.
Proof.
  split; [intros -> x; apply not_elem_of_nil|].
  destruct l as [|x l]; [done|]. intros H. destruct (H x). by left.
Qed.

(** X14. [cmd_reindex] reports no change exactly when the two manifests
    have the same paths and, for every path, the same hash: a record
    that differs only in its [id] or [updated] field is not reported. *)
Theorem no_changes_iff (old new : manifest) :
  no_changes old new = true ↔
  (∀ rel, rel ∈ old.*1 ↔ rel ∈ new.*1) ∧
  (∀ rel info, (rel, info) ∈ new →
     info_hash <$> item old rel = Some (info_hash info)).
Proof.
  unfold no_changes. rewrite !andb_true_iff, !bool_decide_eq_true, !nil_no_elem.
  split.
  - intros [[Hnew Hchanged] Hdeleted]. split.
    + intros rel. split; intros Hin.
      * destruct (decide (rel ∈ new.*1)) as [|Hn]; [done|].
        destruct (Hdeleted rel). by apply elem_of_deleted_files.
      * destruct (decide (rel ∈ old.*1)) as [|Hn]; [done|].
        destruct (Hnew rel). by apply elem_of_new_files.
    + intros rel info Hin.
      destruct (decide (info_hash <$> item old rel = Some (info_hash info)))
        as [|Hne]; [done|].
      destruct (Hchanged rel). apply elem_of_changed_files. split; [|by eauto].
      destruct (decide (rel ∈ old.*1)) as [|Hn]; [done|].
      destruct (Hnew rel). apply elem_of_new_files. split; [|done].
      apply list_elem_of_fmap. by exists (rel, info).
  - intros [Hkeys Hhash]. split; [split|].
    + intros rel [Hn Ho]%elem_of_new_files. by apply Ho, Hkeys.
    + intros rel [_ (info & Hin & Hne)]%elem_of_changed_files.
      by apply Hne, Hhash.
    + intros rel [Ho Hn]%elem_of_deleted_files. by apply Hn, Hkeys.
Qed.

(** X15. A dict has every key once. When the paths of each manifest are
    distinct, no path is reported twice, neither within one of the
    lists of new, changed and deleted files nor in two of them. *)
Theorem report_no_path_twice (old new : manifest) :
  NoDup old.*1 → NoDup new.*1 →
  NoDup (new_files old new ++ changed_files old new ++ deleted_files old new).
Proof.
  intros Hold Hnew.
  assert (∀ p, NoDup (List.filter p new).*1) as Hfilter.
  { intros p. eapply sublist_NoDup; [exact Hnew | apply fmap_sublist, filter_sublist]. }
  apply NoDup_app. split; [apply Hfilter|]. split.
  - intros rel [Hin Hnot]%elem_of_new_files
      [[Ho _]%elem_of_changed_files|[Ho _]%elem_of_deleted_files]%elem_of_app;
      by apply Hnot.
  - apply NoDup_app. split; [apply Hfilter|]. split.
    + intros rel [_ (info & Hin & _)]%elem_of_changed_files
        [_ Hn]%elem_of_deleted_files.
      apply Hn. apply list_elem_of_fmap. by exists (rel, info).
    + eapply sublist_NoDup; [exact Hold | apply filter_sublist].
Qed.

End ManifestFacts.

(** ** The theorems at concrete corpora *)

Module ExtraWitnesses.
Import Py Text Tokenizer Score Ranker Cli Sample MoreSamples.
Import TokenizerExtra EngineExtra RecallFacts ManifestFacts.

Local Ltac evaluate :=
  lazymatch goal with
  | |- ?x = ?y => exact (eq_refl x <: x = y)
  end.

Local Abbreviation run := (score_entries_bm25 TermCount.index TermCount.make
                             TermCount.get_scores).

Lemma tokenless_query_no_result_witness :
  tag_match entry_all "all" = true ∧
  run [entry_all] ["all"; "The"; "a"] = Some [].
Proof.
  split; [evaluate|].
  rewrite (tokenless_query_no_result TermCount.index TermCount.make
             TermCount.get_scores [entry_all] ["all"; "The"; "a"]).
  - reflexivity.
  - apply Forall_cons_2; [|apply Forall_cons_2; [|apply Forall_cons_2;
      [|apply Forall_nil_2]]].
    + left. apply (bool_decide_eq_true_1 _). reflexivity.
    + right. right. reflexivity.
    + right. left. vm_compute. lia.
Defined.



Lemma report_no_path_twice_witness :
  new_files old_manifest new_manifest = ["d.md"] ∧
  changed_files old_manifest new_manifest = ["b.md"] ∧
  deleted_files old_manifest new_manifest = ["c.md"] ∧
  NoDup (new_files old_manifest new_manifest
         ++ changed_files old_manifest new_manifest
         ++ deleted_files old_manifest new_manifest).
Proof.
  split; [evaluate|]. split; [evaluate|]. split; [evaluate|].
  apply (report_no_path_twice old_manifest new_manifest).
  - apply (bool_decide_eq_true_1 _). reflexivity.
  - apply (bool_decide_eq_true_1 _). reflexivity.
Defined.

End ExtraWitnesses.

(** ** The parser of the fat index *)

Module ParserFacts.
Import Py Text Tokenizer Trim Cli IndexParser StringFacts TrimFacts SplitFacts.

Lemma strip_idem (s : string) : strip (strip s) = strip s.
Proof. rewrite !strip_is_by. apply strip_by_idem. Qed.

Lemma field_of_line_inv (markers : list (string * string)) (line key value : string) :
  field_of_line markers line = Some (key, value) →
  key ∈ markers.*2 ∧ strip value = value.
Proof.
  induction markers as [|[m k] ms IH]; cbn; [done|].
  destruct (startswith line m).
  - destruct (second_piece m line) as [v|]; cbn; [|done].
    intros [= <- <-]. split; [apply elem_of_cons; by left | apply strip_idem].
  - intros [? ?]%IH. split; [apply elem_of_cons; by right | done].
Qed.

(** The keys an entry can have. *)
Lemma field_keys (key : string) :
  key ∈ FIELD_MARKERS.*2 →
  key ∈ ["type"; "file"; "tags"; "links"; "summary"; "interface";
         "known_issues"].
Proof. done. Qed.

Lemma add_line_lookup (e : entry) (line key value : string) :
  add_line e line !! key = Some value →
  e !! key = Some value ∨ (key ∈ FIELD_MARKERS.*2 ∧ strip value = value).
Proof.
  unfold add_line.
  destruct (field_of_line FIELD_MARKERS (clean_line line)) as [[k v]|] eqn:E;
    [|by left].
  apply field_of_line_inv in E as [Hk Hv].
  destruct (decide (k = key)) as [->|Hne].
  - rewrite lookup_insert_eq. intros [= <-]. by right.
  - rewrite lookup_insert_ne by done. by left.
Qed.

Lemma add_lines_lookup (lines : list string) (e : entry) (key value : string) :
  fold_left add_line lines e !! key = Some value →
  e !! key = Some value ∨ (key ∈ FIELD_MARKERS.*2 ∧ strip value = value).
Proof.
  revert e. induction lines as [|l ls IH]; intros e; cbn; [by left|].
  intros [H|H]%IH; [by apply add_line_lookup in H | by right].
Qed.

Lemma add_line_keeps (e : entry) (line key : string) :
  key ∉ FIELD_MARKERS.*2 → add_line e line !! key = e !! key.
Proof.
  intros Hk. unfold add_line.
  destruct (field_of_line FIELD_MARKERS (clean_line line)) as [[k v]|] eqn:E;
    [|done].
  apply field_of_line_inv in E as [Hk' _].
  rewrite lookup_insert_ne; [done|]. by intros ->.
Qed.

Lemma add_lines_keep (lines : list string) (e : entry) (key : string) :
  key ∉ FIELD_MARKERS.*2 → fold_left add_line lines e !! key = e !! key.
Proof.
  intros Hk. revert e. induction lines as [|l ls IH]; intros e; cbn; [done|].
  by rewrite IH, add_line_keeps.
Qed.

(** X16. Every entry that the parser returns has an id that begins
    with capital letters, a hyphen and digits, and a raw text that
    begins with "### "; its other keys are among type, file, tags,
    links, summary, interface and known_issues. *)
Theorem parsed_entry_keys (index_text : string) (e : entry) :
  e ∈ parse_index_entries index_text →
  (∃ entry_id, e !! "id" = Some entry_id ∧ looks_like_id entry_id = true) ∧
  (∃ chunk, e !! "raw" = Some ("### " +:+ chunk)) ∧
  ∀ key, is_Some (e !! key) →
    key ∈ ["id"; "raw"; "type"; "file"; "tags"; "links"; "summary";
           "interface"; "known_issues"].
Proof.
  unfold parse_index_entries.
  intros (chunk & _ & Hparse)%list_elem_of_omap. unfold parse_chunk in Hparse.
  destruct (is_empty (strip chunk)); [done|].
  destruct (looks_like_id _) eqn:Hid; [|done]. cbn in Hparse.
  injection Hparse as <-.
  set (e0 := <["raw" := "### " +:+ strip chunk]> (<["id" := _]> ∅)).
  set (e1 := fold_left add_line _ e0).
  assert (∀ key, key ∉ FIELD_MARKERS.*2 →
            match summary_of ("### " +:+ strip chunk) with
            | Some summary => <["summary" := summary]> e1
            | None => e1
            end !! key = e0 !! key) as Hkeep.
  { intros key Hk. destruct (summary_of _).
    - rewrite lookup_insert_ne; [by apply add_lines_keep|].
      intros <-. apply Hk. by apply (bool_decide_eq_true_1 _).
    - by apply add_lines_keep. }
  split; [|split].
  - eexists. split; [|exact Hid].
    rewrite Hkeep by (by apply (bool_decide_eq_false_1 _)). done.
  - eexists. rewrite Hkeep by (by apply (bool_decide_eq_false_1 _)). done.
  - intros key [v Hv].
    assert (e1 !! key = Some v ∨ key = "summary") as [H1| ->].
    { destruct (summary_of _); [|by left].
      destruct (decide (key = "summary")) as [|Hne]; [by right|].
      rewrite lookup_insert_ne in Hv by done. by left. }
    + apply add_lines_lookup in H1 as [H0|[Hk _]].
      * unfold e0 in H0.
        destruct (decide (key = "raw")) as [->|?];
          [by apply (bool_decide_eq_true_1 _)|].
        rewrite lookup_insert_ne in H0 by done.
        destruct (decide (key = "id")) as [->|?];
          [by apply (bool_decide_eq_true_1 _)|].
        by rewrite lookup_insert_ne in H0.
      * apply field_keys in Hk.
        apply elem_of_cons. right. apply elem_of_cons. by right.
    + by apply (bool_decide_eq_true_1 _).
Qed.

Lemma words_clean (g : string) :
  Forall (λ w, is_empty w = false ∧
               ∀ c, c ∈ list_ascii_of_string w → is_space c = false)
         (words g).
Proof.
  unfold words. apply Forall_forall.
  intros w [Hw Hne]%SortFacts.elem_of_bool_filter.
  split; [by apply negb_true_iff in Hne|].
  pose proof (re_split_with_clean is_space false EmptyString g) as H.
  rewrite Forall_forall in H. apply H; [|done]. by intros ? []%elem_of_nil.
Qed.

Lemma join_space_ends (ws : list string) :
  Forall (λ w, is_empty w = false ∧
               ∀ c, c ∈ list_ascii_of_string w → is_space c = false) ws →
  (∀ c, head (list_ascii_of_string (join " " ws)) = Some c →
        is_space c = false) ∧
  (∀ c, last (list_ascii_of_string (join " " ws)) = Some c →
        is_space c = false).
Proof.
  induction 1 as [|w ws [Hne Hw] Hws [IHh IHl]]; [done|].
  destruct ws as [|w' ws].
  { cbn [join]. split; intros c Hc; apply Hw;
      [by apply head_Some_elem_of | by apply last_Some_elem_of]. }
  change (join " " (w :: w' :: ws)) with (w +:+ " " +:+ join " " (w' :: ws)).
  rewrite !chars_append. split; intros c.
  - destruct w as [|x w]; [done|]. cbn. intros [= <-]. apply Hw. by left.
  - rewrite last_app. change (list_ascii_of_string " ") with [" "%char].
    cbn [app]. rewrite last_cons.
    destruct (last (list_ascii_of_string (join " " (w' :: ws)))) as [y|] eqn:E.
    + intros [= <-]. by apply IHl.
    + apply last_None in E. apply Forall_cons in Hws as [[Hne' _] _].
      exfalso. destruct w' as [|x w']; [done|]. clear -E.
      destruct ws; cbn in E; [done|]. rewrite append_cons in E. done.
Qed.

Lemma strip_join_words (g : string) :
  strip (join " " (words g)) = join " " (words g).
Proof.
  rewrite strip_is_by.
  destruct (join_space_ends (words g) (words_clean g)) as [Hh Hl].
  by apply strip_by_id.
Qed.

Lemma strip_raw (chunk : string) :
  is_empty (strip chunk) = false →
  strip ("### " +:+ strip chunk) = "### " +:+ strip chunk.
Proof.
  intros Hne. rewrite (strip_is_by ("### " +:+ _)). apply strip_by_id.
  - intros c. rewrite chars_append. cbn. by intros [= <-].
  - intros c. rewrite chars_append, last_app.
    destruct (last (list_ascii_of_string (strip chunk))) as [y|] eqn:E.
    + intros [= <-]. rewrite strip_is_by in E. by apply strip_by_last in E.
    + apply last_None in E. destruct (strip chunk); done.
Qed.

(** X17. No value of a parsed entry has white space at its start or at
    its end: the id, the raw text, every field taken from a line and the
    summary are all stripped. *)
Theorem parsed_values_stripped (index_text : string) (e : entry)
    (key value : string) :
  e ∈ parse_index_entries index_text →
  e !! key = Some value →
  strip value = value.
Proof.
  unfold parse_index_entries.
  intros (chunk & _ & Hparse)%list_elem_of_omap Hv. unfold parse_chunk in Hparse.
  destruct (is_empty (strip chunk)) eqn:Hne; [done|].
  destruct (looks_like_id _); [|done]. cbn in Hparse.
  injection Hparse as <-.
  assert (fold_left add_line (tl (split NEWLINE (strip chunk)))
            (<["raw" := "### " +:+ strip chunk]>
               (<["id" := strip (hd EmptyString (split NEWLINE (strip chunk)))]> ∅))
          !! key = Some value → strip value = value) as Hlines.
  { intros [H0|[_ ?]]%add_lines_lookup; [|done].
    destruct (decide (key = "raw")) as [->|?].
    { rewrite lookup_insert_eq in H0. injection H0 as <-. by apply strip_raw. }
    rewrite lookup_insert_ne in H0 by done.
    destruct (decide (key = "id")) as [->|?].
    { rewrite lookup_insert_eq in H0. injection H0 as <-. apply strip_idem. }
    by rewrite lookup_insert_ne in H0. }
  unfold summary_of in Hv.
  destruct (after_first "**Summary:**" ("### " +:+ strip chunk)) as [rest|];
    cbn in Hv; [|by apply Hlines].
  destruct (decide (key = "summary")) as [->|?].
  - rewrite lookup_insert_eq in Hv. injection Hv as <-. apply strip_join_words.
  - rewrite lookup_insert_ne in Hv by done. by apply Hlines.
Qed.

End ParserFacts.

(** ** Depositing an entry and reading it back *)

Module DepositFacts.
Import Py Text Tokenizer Ranker Trim Cli IndexParser.
Import StringFacts TrimFacts SplitFacts NextIdFacts QueryFacts ParserFacts.

Lemma fat_entry_unlines (file_id file_type dir filename tags : string) :
  fat_entry file_id file_type dir filename tags
  = "### " +:+ unlines (fat_entry_lines file_id file_type dir filename tags).
Proof.
  apply chars_inj. unfold fat_entry, fat_entry_lines.
  cbn [unlines].
  repeat (rewrite ?chars_append; cbn [list_ascii_of_string]).
  by rewrite <- ?app_assoc.
Qed.

Lemma rev_app_rev (x cur : string) :
  String.rev (String.rev_app x cur) = String.rev cur +:+ x.
Proof.
  apply chars_inj. rewrite chars_append, !chars_rev, chars_rev_app.
  by rewrite reverse_app, reverse_involutive.
Qed.

(** *** Cutting at newlines *)

Lemma split_go_skip (sep : ascii) (x cur rest : string) :
  Forall (λ c, c ≠ sep) (list_ascii_of_string x) →
  split_go sep cur (x +:+ rest) = split_go sep (String.rev_app x cur) rest.
Proof.
  revert cur. induction x as [|c x IH]; intros cur Hx; [done|].
  apply Forall_cons in Hx as [Hc Hx]. rewrite append_cons. cbn.
  rewrite bool_decide_eq_false_2 by done. by apply IH.
Qed.

Lemma split_unlines (sep : ascii) (l : string) (ls : list string) (cur : string) :
  Forall (λ x, Forall (λ c, c ≠ sep) (list_ascii_of_string x)) (l :: ls) →
  split_go sep cur (join (String sep EmptyString) (l :: ls))
  = (String.rev cur +:+ l) :: ls.
Proof.
  revert l cur. induction ls as [|l' ls IH]; intros l cur [Hl Hls]%Forall_cons.
  - cbn [join]. rewrite <- (append_nil_r l) at 1.
    rewrite split_go_skip by done. cbn [split_go]. by rewrite rev_app_rev.
  - change (join (String sep EmptyString) (l :: l' :: ls))
      with (l +:+ String sep (join (String sep EmptyString) (l' :: ls))).
    rewrite split_go_skip by done. cbn [split_go].
    rewrite bool_decide_eq_true_2 by done.
    rewrite rev_app_rev. f_equal. by rewrite IH.
Qed.

(** *** Cutting at headings *)

Lemma split_headings_first (c : ascii) (cur s : string) :
  c ≠ "#"%char →
  split_headings_go true cur (String c s)
  = split_headings_go (bool_decide (c = NEWLINE)) (String c cur) s.
Proof. intros Hc. by destruct c as [[] [] [] [] [] [] [] []]. Qed.

Lemma split_headings_inside (x cur rest : string) :
  Forall (λ c, c ≠ NEWLINE) (list_ascii_of_string x) →
  split_headings_go false cur (x +:+ String NEWLINE rest)
  = split_headings_go true (String NEWLINE (String.rev_app x cur)) rest.
Proof.
  revert cur. induction x as [|c x IH]; intros cur Hx.
  { by rewrite append_nil_l. }
  apply Forall_cons in Hx as [Hc Hx]. rewrite append_cons.
  cbn [split_headings_go]. rewrite bool_decide_eq_false_2 by done.
  by rewrite IH.
Qed.

Lemma split_headings_line (x cur rest : string) :
  Forall (λ c, c ≠ NEWLINE) (list_ascii_of_string x) →
  head (list_ascii_of_string x) ≠ Some "#"%char →
  split_headings_go true cur (x +:+ String NEWLINE rest)
  = split_headings_go true (String NEWLINE (String.rev_app x cur)) rest.
Proof.
  intros Hx Hh. destruct x as [|c x].
  { by rewrite append_nil_l. }
  apply Forall_cons in Hx as [Hc Hx]. rewrite append_cons.
  rewrite split_headings_first by (intros ->; by apply Hh).
  rewrite bool_decide_eq_false_2 by done.
  by rewrite split_headings_inside.
Qed.

Lemma split_headings_unlines (lines : list string) (cur : string) :
  Forall (λ x, Forall (λ c, c ≠ NEWLINE) (list_ascii_of_string x) ∧
               head (list_ascii_of_string x) ≠ Some "#"%char) lines →
  split_headings_go true cur (unlines lines)
  = [String.rev cur +:+ unlines lines].
Proof.
  revert cur. induction lines as [|l ls IH]; intros cur Hall.
  { cbn. by rewrite append_nil_r. }
  apply Forall_cons in Hall as [[Hl Hh] Hls]. cbn [unlines].
  rewrite split_headings_line, IH by done. f_equal.
  apply chars_inj. rewrite !chars_append, !chars_rev. cbn [list_ascii_of_string].
  rewrite chars_rev_app, reverse_cons, reverse_app, reverse_involutive.
  by rewrite <- !app_assoc.
Qed.


(** *** Stripping the chunk *)

Lemma unlines_join (l : string) (ls : list string) :
  unlines (l :: ls)
  = join (String NEWLINE EmptyString) (l :: ls) +:+ String NEWLINE EmptyString.
Proof.
  revert l. induction ls as [|l' ls IH]; intros l.
  { reflexivity. }
  change (unlines (l :: l' :: ls)) with (l +:+ String NEWLINE (unlines (l' :: ls))).
  change (join (String NEWLINE EmptyString) (l :: l' :: ls))
    with (l +:+ String NEWLINE EmptyString
            +:+ join (String NEWLINE EmptyString) (l' :: ls)).
  rewrite IH. apply chars_inj.
  repeat (rewrite ?chars_append; cbn [list_ascii_of_string]).
  by rewrite <- ?app_assoc.
Qed.

Lemma strip_trailing_newline (s : string) :
  (∀ c, head (list_ascii_of_string s) = Some c → is_space c = false) →
  (∀ c, last (list_ascii_of_string s) = Some c → is_space c = false) →
  s ≠ EmptyString →
  strip (s +:+ String NEWLINE EmptyString) = s.
Proof.
  intros Hh Hl Hne. unfold strip.
  assert (lstrip (s +:+ String NEWLINE EmptyString)
          = s +:+ String NEWLINE EmptyString) as ->.
  { destruct s as [|c s]; [done|]. rewrite append_cons. cbn.
    by rewrite (Hh c). }
  assert (String.rev (s +:+ String NEWLINE EmptyString)
          = String NEWLINE (String.rev s)) as ->.
  { apply chars_inj. rewrite chars_rev, chars_append. cbn [list_ascii_of_string].
    by rewrite reverse_app, chars_rev. }
  cbn [lstrip]. change (is_space NEWLINE) with true. cbn match.
  rewrite lstrip_is_by, lstrip_by_id; [apply rev_involutive|].
  intros c. rewrite chars_rev, head_reverse. apply Hl.
Qed.

(** *** One field line *)

Lemma before_plain (marker v : string) :
  Forall (λ c, c ≠ NEWLINE ∧ c ≠ "*"%char) (list_ascii_of_string v) →
  before (String "*" marker) v = v.
Proof.
  induction v as [|c v IH]; [done|]. intros [[_ Hc] Hv]%Forall_cons.
  cbn [before String.prefix].
  destruct (ascii_dec "*" c) as [<-|_]; [done|]. by rewrite IH.
Qed.

Lemma strip_lead_space (v : string) : strip (String " " v) = strip v.
Proof. done. Qed.

Lemma plain_head (v : string) (c : ascii) :
  plain_value v → head (list_ascii_of_string v) = Some c → is_space c = false.
Proof.
  intros (_ & Hs & _) Hc. rewrite <- Hs, strip_is_by in Hc.
  by apply strip_by_head in Hc.
Qed.

Lemma plain_last (v : string) (c : ascii) :
  plain_value v → last (list_ascii_of_string v) = Some c → is_space c = false.
Proof.
  intros (_ & Hs & _) Hc. rewrite <- Hs, strip_is_by in Hc.
  by apply strip_by_last in Hc.
Qed.

Lemma last_append_nonempty (a v : string) :
  v ≠ EmptyString →
  last (list_ascii_of_string (a +:+ v)) = last (list_ascii_of_string v).
Proof.
  intros Hv. rewrite chars_append, last_app.
  destruct (last (list_ascii_of_string v)) eqn:E; [done|].
  apply last_None in E. by destruct v.
Qed.

(** A line "- **Marker:** value" sets the key of its marker to the
    value. *)
Lemma add_field_line (marker key v : string) (e : entry) :
  (marker, key) ∈ FIELD_MARKERS →
  plain_value v →
  add_line e ("- " +:+ marker +:+ " " +:+ v) = <[key := v]> e.
Proof.
  intros Hm Hv. unfold add_line, clean_line.
  assert (strip ("- " +:+ marker +:+ " " +:+ v)
          = "- " +:+ marker +:+ " " +:+ v) as ->.
  { rewrite strip_is_by. apply strip_by_id.
    - intros c. cbn. by intros [= <-].
    - intros c. rewrite <- !append_assoc.
      rewrite last_append_nonempty by apply Hv. by apply plain_last. }
  destruct Hv as (Hne & Hs & Hp).
  assert (Forall (λ c, c ≠ NEWLINE ∧ c ≠ "*"%char)
            (list_ascii_of_string (String " " v))) as Hp'.
  { cbn [list_ascii_of_string]. by constructor. }
  unfold FIELD_MARKERS in Hm.
  repeat (apply elem_of_cons in Hm as [[= -> ->]|Hm]);
    [..|by apply elem_of_nil in Hm];
    rewrite !append_cons, !append_nil_l;
    cbv -[strip before insert].
  all: by rewrite (before_plain _ _ Hp'), strip_lead_space, Hs.
Qed.

(** *** The summary *)

Lemma after_first_plain (m x rest : string) :
  Forall (λ c, c ≠ NEWLINE ∧ c ≠ "*"%char) (list_ascii_of_string x) →
  after_first (String "*" m) (x +:+ rest) = after_first (String "*" m) rest.
Proof.
  induction x as [|c x IH]; [done|]. intros [[_ Hc] Hx]%Forall_cons.
  rewrite append_cons. cbn [after_first strip_prefix].
  rewrite bool_decide_eq_false_2 by (by intros <-). by apply IH.
Qed.

Lemma split_headings_entry (l : string) (ls : list string) :
  Forall (λ c, c ≠ NEWLINE) (list_ascii_of_string l) →
  Forall (λ x, Forall (λ c, c ≠ NEWLINE) (list_ascii_of_string x) ∧
               head (list_ascii_of_string x) ≠ Some "#"%char) ls →
  split_headings ("### " +:+ unlines (l :: ls)) = [EmptyString; unlines (l :: ls)].
Proof.
  intros Hl Hls. unfold split_headings.
  change (split_headings_go true EmptyString ("### " +:+ unlines (l :: ls)))
    with (EmptyString :: split_headings_go false EmptyString (unlines (l :: ls))).
  f_equal. cbn [unlines].
  rewrite split_headings_inside, split_headings_unlines by done. f_equal.
  apply chars_inj. rewrite !chars_append, !chars_rev. cbn [list_ascii_of_string].
  rewrite chars_rev_app, reverse_cons, reverse_app, reverse_involutive.
  cbn. by rewrite <- !app_assoc.
Qed.

Lemma plain_no_newline (v : string) :
  plain_value v → Forall (λ c, c ≠ NEWLINE) (list_ascii_of_string v).
Proof. intros (_ & _ & H). eapply Forall_impl; [exact H|]. by intros c [? _]. Qed.

Lemma plain_constants :
  plain_value "_none yet_" ∧ plain_value TODO_SUMMARY ∧ plain_value "None open".
Proof.
  repeat split; try done.
  all: by apply (bool_decide_eq_true_1 _).
Qed.

Lemma looks_like_id_nonempty (s : string) : looks_like_id s = true → s ≠ EmptyString.
Proof. by intros H ->. Qed.

Lemma looks_like_id_head (s : string) (c : ascii) :
  looks_like_id s = true → head (list_ascii_of_string s) = Some c → c ≠ "#"%char.
Proof.
  destruct s as [|a s]; [done|]. intros H [= <-] ->.
  unfold looks_like_id in H.
  change (lstrip_by is_upper (String "#" s)) with (String "#" s) in H.
  by rewrite Nat.ltb_irrefl in H.
Qed.

(** *** The entry of [cmd_deposit] *)

Section Deposit.
Variables file_id file_type dir filename tags : string.
Hypothesis Hid : looks_like_id file_id = true.
Hypothesis Hpid : plain_value file_id.
Hypothesis Hptype : plain_value file_type.
Hypothesis Hpfile : plain_value (dir +:+ "/" +:+ filename).
Hypothesis Hptags : plain_value tags.

Local Abbreviation L := (fat_entry_lines file_id file_type dir filename tags).

Lemma lines_no_newline :
  Forall (λ x, Forall (λ c, c ≠ NEWLINE) (list_ascii_of_string x)) L.
Proof.
  destruct plain_constants as (H1 & H2 & H3).
  unfold fat_entry_lines.
  repeat apply Forall_cons_2; try apply Forall_nil_2.
  all: try (by apply plain_no_newline).
  all: try (by apply (bool_decide_eq_true_1 _)).
  all: rewrite chars_append; apply Forall_app_2;
    [by apply (bool_decide_eq_true_1 _) | by apply plain_no_newline].
Qed.

Lemma lines_no_heading :
  Forall (λ x, head (list_ascii_of_string x) ≠ Some "#"%char) (tl L).
Proof.
  unfold fat_entry_lines. cbn [tl].
  repeat apply Forall_cons_2; try apply Forall_nil_2; done.
Qed.

Lemma strip_chunk : strip (unlines L) = join (String NEWLINE EmptyString) L.
Proof.
  unfold fat_entry_lines. rewrite unlines_join.
  apply strip_trailing_newline.
  - intros c. cbn [join]. destruct file_id as [|a s] eqn:E; [by destruct Hpid|].
    rewrite append_cons. cbn [list_ascii_of_string head]. intros [= <-].
    apply (plain_head (String a s)); [done|done].
  - intros c. cbn [join]. rewrite <- !append_assoc.
    rewrite last_append_nonempty by done. by intros [= <-].
  - cbn [join]. destruct file_id; [by destruct Hpid|done].
Qed.

Lemma deposit_lines (e : entry) :
  fold_left add_line (tl L) e
  = <["known_issues" := "None open"]> (<["summary" := TODO_SUMMARY]> (
    <["links" := "_none yet_"]> (<["tags" := tags]> (
    <["file" := dir +:+ "/" +:+ filename]> (<["type" := file_type]> e))))).
Proof.
  destruct plain_constants as (H1 & H2 & H3).
  unfold fat_entry_lines. cbn [tl fold_left].
  rewrite (add_field_line "**Type:**" "type" file_type) by (done || by apply (bool_decide_eq_true_1 _)).
  rewrite (add_field_line "**File:**" "file" (dir +:+ "/" +:+ filename)) by (done || by apply (bool_decide_eq_true_1 _)).
  rewrite (add_field_line "**Tags:**" "tags" tags) by (done || by apply (bool_decide_eq_true_1 _)).
  rewrite (add_field_line "**Links:**" "links" "_none yet_") by (done || by apply (bool_decide_eq_true_1 _)).
  rewrite (add_field_line "**Summary:**" "summary" TODO_SUMMARY) by (done || by apply (bool_decide_eq_true_1 _)).
  rewrite (add_field_line "**Known issues:**" "known_issues" "None open") by (done || by apply (bool_decide_eq_true_1 _)).
  done.
Qed.

Local Ltac skip_literal :=
  lazymatch goal with
  | |- context [after_first ?S (?p +:+ ?X)] =>
      change (after_first S (p +:+ X)) with (after_first S X)
  end.

Lemma deposit_summary :
  summary_of ("### " +:+ join (String NEWLINE EmptyString) L) = Some TODO_SUMMARY.
Proof.
  unfold summary_of, fat_entry_lines. cbn [join].
  set (file := dir +:+ "/" +:+ filename) in *.
  rewrite !append_assoc.
  skip_literal. rewrite after_first_plain by apply Hpid.
  skip_literal. skip_literal. rewrite after_first_plain by apply Hptype.
  skip_literal. skip_literal. rewrite after_first_plain by apply Hpfile.
  skip_literal. skip_literal. rewrite after_first_plain by apply Hptags.
  done.
Qed.

Lemma deposit_chunk :
  parse_chunk (unlines L)
  = Some (<["summary" := TODO_SUMMARY]> (fold_left add_line (tl L)
      (<["raw" := "### " +:+ join (String NEWLINE EmptyString) L]>
         (<["id" := file_id]> ∅)))).
Proof.
  unfold parse_chunk. rewrite strip_chunk, deposit_summary.
  assert (split NEWLINE (join (String NEWLINE EmptyString) L) = L) as ->.
  { unfold split, fat_entry_lines. rewrite split_unlines; [done|].
    apply lines_no_newline. }
  assert (is_empty (join (String NEWLINE EmptyString) L) = false) as ->.
  { unfold fat_entry_lines. cbn [join].
    destruct file_id; [by destruct Hpid|done]. }
  change (hd EmptyString L) with file_id.
  destruct Hpid as (_ & -> & _). by rewrite Hid.
Qed.

End Deposit.

(** X18. The index entry that [cmd_deposit] writes is read back by
    [parse_index_entries] as exactly one entry, with the id, type, file
    and tags that were deposited, the placeholder summary, no interface,
    and no link target: a new entry passes no score on. *)
Theorem deposit_parse_round_trip (file_id file_type dir filename tags : string) :
  looks_like_id file_id = true →
  plain_value file_id → plain_value file_type →
  plain_value (dir +:+ "/" +:+ filename) → plain_value tags →
  ∃ e, parse_index_entries (fat_entry file_id file_type dir filename tags) = [e]
    ∧ e !! "id" = Some file_id
    ∧ e !! "type" = Some file_type
    ∧ e !! "file" = Some (dir +:+ "/" +:+ filename)
    ∧ e !! "tags" = Some tags
    ∧ e !! "summary" = Some TODO_SUMMARY
    ∧ e !! "known_issues" = Some "None open"
    ∧ e !! "interface" = None
    ∧ link_targets e = [].
Proof.
  intros Hid Hpid Hptype Hpfile Hptags.
  eexists. split.
  { unfold parse_index_entries. rewrite fat_entry_unlines.
    set (L := fat_entry_lines file_id file_type dir filename tags).
    change (unlines L) with (unlines (file_id :: tl L)).
    rewrite split_headings_entry.
    - change (unlines (file_id :: tl L)) with (unlines L).
      cbn [omap list_omap]. change (parse_chunk EmptyString) with (@None entry).
      cbv match. unfold L. rewrite deposit_chunk by done. reflexivity.
    - by apply plain_no_newline.
    - pose proof (lines_no_newline file_id file_type dir filename tags
                    Hpid Hptype Hpfile Hptags) as H1.
      pose proof (lines_no_heading file_id file_type dir filename tags) as H2.
      apply Forall_cons in H1 as [_ H1].
      apply Forall_forall. intros x Hx. split.
      + by eapply Forall_forall in H1.
      + by eapply Forall_forall in H2. }
  rewrite deposit_lines by done.
  unfold link_targets, get.
  repeat split; by simplify_map_eq.
Qed.

End DepositFacts.

(** ** The slug of [cmd_recall] *)

Module RecallSlugFacts.
Import Py Text Trim Cli.
Import StringFacts TrimFacts SlugFacts.

Lemma slug_alnum (title : string) :
  Forall (λ c, is_alnum c = true ∨ c = "-"%char)
         (list_ascii_of_string (slug title)).
Proof.
  unfold slug. rewrite strip_char_is_by.
  apply Forall_forall. intros c Hc%strip_by_elem_of.
  pose proof (dash_runs_chars false (lower title)) as H.
  rewrite Forall_forall in H. by apply H.
Qed.

Lemma slug_head (title : string) :
  head (list_ascii_of_string (slug title)) ≠ Some "-"%char.
Proof.
  unfold slug. rewrite strip_char_is_by. intros Hh%strip_by_head.
  by apply bool_decide_eq_false in Hh.
Qed.

Lemma slug_no_double (title : string) (a b : list ascii) :
  list_ascii_of_string (slug title) ≠ a ++ list_ascii_of_string "--" ++ b.
Proof.
  unfold slug. rewrite strip_char_is_by. intros Hab.
  set (d := dash_runs false (lower title)) in *.
  set (p := λ c : ascii, bool_decide (c = "-"%char)) in *.
  destruct (strip_by_infix p d) as (a0 & b0 & Hd).
  destruct (dash_runs_no_double false (lower title)) as [Hno _].
  apply not_true_iff_false in Hno. apply Hno, contains_chars.
  exists (a0 ++ a), (b ++ b0). fold d. rewrite Hd, Hab.
  by rewrite <- !app_assoc.
Qed.

(** X19. The slug in the name of a reset file is the first 40
    characters of the slug of the task: it is the whole slug when that
    has at most 40 characters, it is made of a-z, 0-9 and hyphens, does
    not start with a hyphen and has no two hyphens in a row. *)
Theorem recall_slug_shape (task : string) :
  len (recall_slug task) ≤ 40 ∧
  (∃ rest, slug task = recall_slug task +:+ rest) ∧
  (len (slug task) ≤ 40 → recall_slug task = slug task) ∧
  Forall (λ c, is_alnum c = true ∨ c = "-"%char)
         (list_ascii_of_string (recall_slug task)) ∧
  startswith (recall_slug task) "-" = false ∧
  contains "--" (recall_slug task) = false.
Proof.
  assert (list_ascii_of_string (recall_slug task)
          = take 40 (list_ascii_of_string (slug task))) as Hcut.
  { apply chars_substring_0. }
  split; [|split; [|split; [|split; [|split]]]].
  - rewrite <- len_chars, Hcut, length_take. lia.
  - exists (string_of_list_ascii (drop 40 (list_ascii_of_string (slug task)))).
    apply chars_inj.
    by rewrite chars_append, Hcut, list_ascii_of_string_of_list_ascii, take_drop.
  - intros Hlen. apply chars_inj. rewrite Hcut. apply take_ge.
    by rewrite len_chars.
  - rewrite Hcut. apply Forall_take, slug_alnum.
  - apply startswith_single. rewrite Hcut.
    pose proof (slug_head task) as Hh.
    by destruct (list_ascii_of_string (slug task)).
  - apply not_true_iff_false. intros (a & b & Hab)%contains_chars.
    apply (slug_no_double task a (b ++ drop 40 (list_ascii_of_string (slug task)))).
    rewrite <- (take_drop 40 (list_ascii_of_string (slug task))) at 1.
    rewrite <- Hcut, Hab. by rewrite <- !app_assoc.
Qed.

(** The cut can leave a hyphen at the end, which [slug] never has. *)
Example recall_slug_trailing_hyphen :
  endswith (recall_slug "the quick brown fox jumps over the lazy dog") "-" = true.
Proof. reflexivity. Qed.

End RecallSlugFacts.

(** ** The sample index *)

Module IndexWitnesses.
Import Py Text Tokenizer Ranker Cli IndexParser.
Import ParserFacts DepositFacts.

Local Ltac evaluate :=
  lazymatch goal with
  | |- ?x = ?y => exact (eq_refl x <: x = y)
  end.

Lemma sample_parsed :
  IndexSample.first_entry ∈ parse_index_entries IndexSample.index_text.
Proof.
  replace (parse_index_entries IndexSample.index_text)
    with [IndexSample.first_entry] by evaluate.
  apply elem_of_cons. by left.
Defined.

Lemma parsed_entry_keys_witness :
  (∃ entry_id, IndexSample.first_entry !! "id" = Some entry_id ∧
               looks_like_id entry_id = true) ∧
  (∃ chunk, IndexSample.first_entry !! "raw" = Some ("### " +:+ chunk)) ∧
  ∀ key, is_Some (IndexSample.first_entry !! key) →
    key ∈ ["id"; "raw"; "type"; "file"; "tags"; "links"; "summary";
           "interface"; "known_issues"].
Proof.
  apply (parsed_entry_keys IndexSample.index_text IndexSample.first_entry).
  apply sample_parsed.
Defined.

Lemma parsed_values_stripped_witness :
  IndexSample.first_entry !! "tags" = Some "search, bm25" ∧
  strip "search, bm25" = "search, bm25".
Proof.
  assert (IndexSample.first_entry !! "tags" = Some "search, bm25") as H by evaluate.
  split; [exact H|].
  apply (parsed_values_stripped IndexSample.index_text IndexSample.first_entry
           "tags" "search, bm25"); [apply sample_parsed | exact H].
Defined.

Lemma deposit_parse_round_trip_witness :
  ∃ e, parse_index_entries IndexSample.index_text = [e]
    ∧ e !! "id" = Some "LEARN-003"
    ∧ e !! "type" = Some "LEARN"
    ∧ e !! "file" = Some ("learnings" +:+ "/" +:+ "LEARN-003_bm25-notes.md")
    ∧ e !! "tags" = Some "search, bm25"
    ∧ e !! "summary" = Some TODO_SUMMARY
    ∧ e !! "known_issues" = Some "None open"
    ∧ e !! "interface" = None
    ∧ link_targets e = [].
Proof.
  apply (deposit_parse_round_trip "LEARN-003" "LEARN" "learnings"
           "LEARN-003_bm25-notes.md" "search, bm25").
  - reflexivity.
  - apply (bool_decide_eq_true_1 _). reflexivity.
  - apply (bool_decide_eq_true_1 _). reflexivity.
  - apply (bool_decide_eq_true_1 _). reflexivity.
  - apply (bool_decide_eq_true_1 _). reflexivity.
Defined.

End IndexWitnesses.

(** * The amounts, with the arithmetic of the code *)

(** ** The stages of the engine over binary64 *)

Module Binary64Facts.
Import Py Text Tokenizer Binary64 SortFacts StringFacts SlugFacts.
Import PrimFloat.

(** *** Stage 2 *)

Lemma boost_from_inv_b64 (i : nat) (entries : list entry) (raw : list float)
    (q : list string) (boosted : list scored) :
  boost_from i entries raw q = Some boosted →
  boosted.*2 = entries ∧
  ∀ k se, boosted !! k = Some se →
    ∃ r, raw !! (i + k) = Some r ∧ se = (boost_entry q r se.2, se.2).
Proof.
  revert i boosted. induction entries as [|e es IH]; intros i boosted; cbn.
  { intros [= <-]. split; [done|]. intros k se. by rewrite lookup_nil. }
  destruct (raw !! i) as [r|] eqn:Hr; [|done]. cbn.
  destruct (boost_from (S i) es raw q) as [rest|] eqn:Hrest; [|done]. cbn.
  intros [= <-]. destruct (IH _ _ Hrest) as [Hsnd Hlook]. split.
  { cbn. by rewrite Hsnd. }
  intros [|k] se; cbn.
  - intros [= <-]. exists r. by rewrite Nat.add_0_r.
  - intros Hk. destruct (Hlook k se Hk) as (r' & Hr' & Hse).
    exists r'. by rewrite Nat.add_succ_r.
Qed.

(** The test [term_lower in tags]. *)
Lemma tag_match_spec (e : entry) (term : string) :
  Ranker.tag_match e term = true ↔
  lower term ∈ (λ t, lower (strip t)) <$> split "," (get e "tags" EmptyString).
Proof. unfold Ranker.tag_match, Ranker.entry_tags. apply bool_decide_eq_true. Qed.

(** The test [term_lower in entry.get("id", EMPTY).lower()], where EMPTY
    is the empty string. *)
Lemma id_match_spec (e : entry) (term : string) :
  Ranker.id_match e term = true ↔
  ∃ pre post, lower (get e "id" EmptyString) = pre +:+ lower term +:+ post.
Proof.
  unfold Ranker.id_match. rewrite contains_chars. split.
  - intros (a & b & Hab).
    exists (string_of_list_ascii a), (string_of_list_ascii b).
    apply chars_inj.
    by rewrite !chars_append, !list_ascii_of_string_of_list_ascii.
  - intros (pre & post & ->).
    exists (list_ascii_of_string pre), (list_ascii_of_string post).
    by rewrite !chars_append.
Qed.

(** *** Stage 3 *)

Lemma pool_get_add_link_b64 (s : float) (m : gmap string float) (t lid : string) :
  pool_get (add_link s m t) lid =
  if bool_decide (t = lid) then pour (pool_get m lid) s else pool_get m lid.
Proof.
  unfold add_link. unfold pool_get at 1. case_bool_decide as Ht.
  - subst. by rewrite lookup_insert_eq.
  - by rewrite lookup_insert_ne.
Qed.

Lemma pool_get_add_links_b64 (s : float) (targets : list string)
    (m : gmap string float) (lid : string) :
  pool_get (fold_left (add_link s) targets m) lid =
  fold_left pour
    ((λ _, s) <$> List.filter (λ t, bool_decide (t = lid)) targets)
    (pool_get m lid).
Proof.
  revert m. induction targets as [|t ts IH]; intros m; [done|].
  cbn [fold_left List.filter]. rewrite IH, pool_get_add_link_b64.
  by destruct (bool_decide (t = lid)).
Qed.

Lemma pool_get_fold_b64 (boosted : list scored) (m : gmap string float)
    (lid : string) :
  pool_get (fold_left propagate_entry boosted m) lid =
  fold_left pour (senders lid boosted) (pool_get m lid).
Proof.
  revert m. induction boosted as [|se l IH]; intros m; [done|].
  cbn [fold_left]. rewrite IH. unfold senders at 2.
  change ((se :: l) ≫= ?f) with (f se ++ (l ≫= f)).
  rewrite fold_left_app. f_equal.
  unfold propagate_entry. destruct (se.1 <=? 0)%float; [done|].
  apply pool_get_add_links_b64.
Qed.

(** The pool holds, for every id, what the loop has added for it, one
    addition after the other, starting from [0.0]. *)
Lemma pool_get_link_propagation_b64 (boosted : list scored) (lid : string) :
  pool_get (link_propagation boosted) lid
  = fold_left pour (senders lid boosted) 0%float.
Proof. unfold link_propagation. by rewrite pool_get_fold_b64. Qed.

(** *** Stage 4 *)

Section Sort.
Context {A : Type} (key : A → float).

Lemma insert_desc_perm_b64 (x : A) (l : list A) :
  insert_desc key x l ≡ₚ x :: l.
Proof.
  induction l as [|y l IH]; [done|]. cbn.
  destruct (key x <? key y)%float; [|done].
  rewrite IH. apply Permutation_swap.
Qed.

Lemma sort_desc_perm_b64 (l : list A) : sort_desc key l ≡ₚ l.
Proof.
  induction l as [|x l IH]; [done|].
  change (sort_desc key (x :: l)) with (insert_desc key x (sort_desc key l)).
  by rewrite insert_desc_perm_b64, IH.
Qed.
End Sort.

(** *** The engine as a whole *)

Section Engine.
Context (BM25 : Type)
        (BM25Okapi : list (list string) → float → float → option BM25)
        (get_scores : BM25 → list string → list float).

Lemma engine_inv_b64 (entries : list entry) (q : list string)
    (res : list scored) :
  score_entries_bm25 BM25 BM25Okapi get_scores entries q = Some res →
  (tokenize (join " " q) = [] ∧ res = []) ∨
  ∃ bm25 boosted,
    tokenize (join " " q) ≠ [] ∧
    build_bm25_index BM25 BM25Okapi entries = Some bm25 ∧
    structural_boosts entries
      (get_scores bm25 (tokenize (join " " q))) q = Some boosted ∧
    res = sort_desc fst (apply_link_boosts boosted (link_propagation boosted)).
Proof.
  unfold score_entries_bm25.
  destruct (build_bm25_index _ _ entries) as [bm25|]; [|done]. cbn.
  destruct (tokenize (join " " q)) as [|t ts] eqn:Htok.
  { intros [= <-]. by left. }
  destruct (structural_boosts _ _ _) as [boosted|] eqn:Hb; [|done]. cbn.
  intros [= <-]. right. by exists bm25, boosted.
Qed.
End Engine.

End Binary64Facts.

(** ** The claims about amounts *)

Module Binary64Claims.
Import Py Text Tokenizer Binary64 Binary64Facts Sample Sample64.
Import PrimFloat.

Local Ltac evaluate :=
  lazymatch goal with
  | |- ?x = ?y => exact (eq_refl x <: x = y)
  end.

(** C6: for the entry at every corpus position, the boosted score is
    the raw score at that position to which the loop over the query
    terms has added, term after term, 5.0 when the lowercased term is
    one of the entry's trimmed, lowercased, comma-split tags and then
    4.0 when it is a substring of the lowercased id. The additions are
    binary64 additions, made in this order. *)
Theorem structural_boost_sum (entries : list entry) (raw : list float)
    (q : list string) (boosted : list scored) (k : nat) (se : scored) :
  structural_boosts entries raw q = Some boosted →
  boosted !! k = Some se →
  ∃ r, raw !! k = Some r ∧ entries !! k = Some se.2 ∧
    se.1 = fold_left
             (λ score term,
                let score := if Ranker.tag_match se.2 term
                             then (score + 5.0)%float else score in
                if Ranker.id_match se.2 term
                then (score + 4.0)%float else score)
             q r ∧
    (∀ term, Ranker.tag_match se.2 term = true ↔
             lower term ∈ (λ t, lower (strip t))
                          <$> split "," (get se.2 "tags" EmptyString)) ∧
    (∀ term, Ranker.id_match se.2 term = true ↔
             ∃ pre post, lower (get se.2 "id" EmptyString)
                         = pre +:+ lower term +:+ post).
Proof.
  intros [Hsnd Hlook]%boost_from_inv_b64 Hk.
  destruct (Hlook k se Hk) as (r & Hr & Hse). exists r.
  split; [done|]. split.
  { rewrite <- Hsnd, list_lookup_fmap, Hk. done. }
  split; [by rewrite Hse at 1|].
  split; [apply tag_match_spec | apply id_match_spec].
Qed.

Lemma structural_boost_sum_witness :
  ∃ r, [0.9999999999999999%float] !! 0 = Some r ∧
    [entry_e] !! 0 = Some (19.0%float, entry_e).2 ∧
    (19.0%float, entry_e).1
    = fold_left
        (λ score term,
           let score := if Ranker.tag_match (19.0%float, entry_e).2 term
                        then (score + 5.0)%float else score in
           if Ranker.id_match (19.0%float, entry_e).2 term
           then (score + 4.0)%float else score)
        ["LEARN"; "search"; "-005"; "zzz"] r ∧
    (∀ term, Ranker.tag_match (19.0%float, entry_e).2 term = true ↔
             lower term ∈ (λ t, lower (strip t))
                <$> split "," (get (19.0%float, entry_e).2 "tags" EmptyString)) ∧
    (∀ term, Ranker.id_match (19.0%float, entry_e).2 term = true ↔
             ∃ pre post, lower (get (19.0%float, entry_e).2 "id" EmptyString)
                         = pre +:+ lower term +:+ post).
Proof.
  apply (structural_boost_sum [entry_e] [0.9999999999999999%float]
           ["LEARN"; "search"; "-005"; "zzz"]
           [(19.0%float, entry_e)] 0 (19.0%float, entry_e)).
  - evaluate.
  - reflexivity.
Defined.

Section Engine.
Context (BM25 : Type)
        (BM25Okapi : list (list string) → float → float → option BM25)
        (get_scores : BM25 → list string → list float).

Local Abbreviation rank := (score_entries_bm25 BM25 BM25Okapi get_scores).

(** C5: the pool holds for every id what the loop has added for it,
    starting from 0.0: one binary64 addition of score * 0.15 for every
    entry whose boosted score passes the test of the code, not
    [score <= 0] (for a number: above zero), and for every occurrence
    of the id among that entry's targets, in corpus order; an id that
    an entry names twice receives the amount twice. The amounts come
    from the boosted scores alone (one hop). The results are the entries
    of the corpus, each with its boosted score plus the pool value of
    its id, of which those with a total above zero are kept and
    sorted. *)
Theorem propagation_single_hop (entries : list entry) (q : list string)
    (res : list scored) :
  rank entries q = Some res →
  tokenize (join " " q) ≠ [] →
  ∃ bm25 boosted,
    build_bm25_index BM25 BM25Okapi entries = Some bm25 ∧
    structural_boosts entries
      (get_scores bm25 (tokenize (join " " q))) q = Some boosted ∧
    boosted.*2 = entries ∧
    (∀ lid, pool_get (link_propagation boosted) lid
            = fold_left (λ pool score, (pool + score * 0.15)%float)
                (boosted ≫= λ se,
                   if (se.1 <=? 0)%float then []
                   else (λ _, se.1)
                          <$> List.filter (λ t, bool_decide (t = lid))
                                (Ranker.link_targets se.2))
                0.0%float) ∧
    res = sort_desc fst
            (List.filter (λ te, (0 <? te.1)%float)
               ((λ se, ((se.1 + pool_get (link_propagation boosted)
                                  (get se.2 "id" EmptyString))%float, se.2))
                <$> boosted)).
Proof.
  intros [[Htok _]|(bm25 & boosted & _ & Hb & Hs & ->)]%engine_inv_b64 Hne;
    [done|].
  exists bm25, boosted. split; [done|]. split; [done|].
  split; [by apply boost_from_inv_b64 in Hs as [? _]|].
  split; [apply pool_get_link_propagation_b64 | done].
Qed.

(** C10: also when several entries share an id, every corpus position
    yields its own pair, with the boosted score computed at that
    position; the results are, up to order, the pairs whose total is
    above zero, where the total of a pair is its own boosted score plus
    the pool value of its id, so a later entry never replaces an earlier
    one and every entry that bears an id gets the amount pooled for that
    id; the pool is what the loop has added, as in C5. *)
Theorem duplicate_ids_kept (entries : list entry) (q : list string)
    (res : list scored) :
  rank entries q = Some res →
  tokenize (join " " q) ≠ [] →
  ∃ bm25 boosted,
    build_bm25_index BM25 BM25Okapi entries = Some bm25 ∧
    structural_boosts entries
      (get_scores bm25 (tokenize (join " " q))) q = Some boosted ∧
    Forall2 (λ se e, se.2 = e) boosted entries ∧
    (∀ k se, boosted !! k = Some se →
       ∃ r, get_scores bm25 (tokenize (join " " q)) !! k = Some r ∧
            se.1 = boost_entry q r se.2) ∧
    res ≡ₚ List.filter (λ te, (0 <? te.1)%float)
             ((λ se, ((se.1 + pool_get (link_propagation boosted)
                                (get se.2 "id" EmptyString))%float, se.2))
              <$> boosted) ∧
    length res =
      length (List.filter
                (λ se, (0 <? se.1 + pool_get (link_propagation boosted)
                                     (get se.2 "id" EmptyString))%float)
                boosted) ∧
    ∀ lid, pool_get (link_propagation boosted) lid
           = fold_left (λ pool score, (pool + score * 0.15)%float)
               (boosted ≫= λ se,
                  if (se.1 <=? 0)%float then []
                  else (λ _, se.1)
                         <$> List.filter (λ t, bool_decide (t = lid))
                               (Ranker.link_targets se.2))
               0.0%float.
Proof.
  intros [[Htok _]|(bm25 & boosted & _ & Hb & Hs & ->)]%engine_inv_b64 Hne;
    [done|].
  exists bm25, boosted. split; [done|]. split; [done|].
  apply boost_from_inv_b64 in Hs as [Hsnd Hlook]. split.
  { rewrite <- Hsnd. apply Forall2_fmap_r, Forall_Forall2_diag.
    by apply Forall_forall. }
  split.
  { intros k se Hk. destruct (Hlook k se Hk) as (r & Hr & Hse).
    exists r. split; [done|]. by rewrite Hse at 1. }
  split; [apply sort_desc_perm_b64|]. split.
  { rewrite sort_desc_perm_b64. unfold apply_link_boosts.
    by rewrite SortFacts.filter_fmap, length_fmap. }
  apply pool_get_link_propagation_b64.
Qed.
End Engine.

(** *** The theorems at concrete corpora, with the term-count index *)

Local Abbreviation run := (score_entries_bm25 TermCount.index TermCount64.make
                         TermCount64.get_scores).

(** The four entries score 10, 0, 11 and 11 after the boosts. The
    second one is the target of the three others, of the last one
    twice: it is returned with the pool value alone. *)
Lemma propagation_single_hop_witness :
  ∃ res bm25 boosted,
    run [entry_a; entry_b; entry_c; entry_d] ["cache"] = Some res ∧
    boosted.*1 = [10.0; 0.0; 11.0; 11.0]%float ∧
    pool_get (link_propagation boosted) "LEARN-002"
      = (10.0 * 0.15 + 11.0 * 0.15 + 11.0 * 0.15 + 11.0 * 0.15)%float ∧
    res.*1 = [11.0; 11.0; 10.0; 6.4499999999999993]%float ∧
    res.*2 = [entry_c; entry_d; entry_a; entry_b] ∧
    build_bm25_index TermCount.index TermCount64.make
      [entry_a; entry_b; entry_c; entry_d] = Some bm25 ∧
    structural_boosts [entry_a; entry_b; entry_c; entry_d]
      (TermCount64.get_scores bm25 (tokenize (join " " ["cache"])))
      ["cache"] = Some boosted ∧
    boosted.*2 = [entry_a; entry_b; entry_c; entry_d] ∧
    (∀ lid, pool_get (link_propagation boosted) lid
            = fold_left (λ pool score, (pool + score * 0.15)%float)
                (boosted ≫= λ se,
                   if (se.1 <=? 0)%float then []
                   else (λ _, se.1)
                          <$> List.filter (λ t, bool_decide (t = lid))
                                (Ranker.link_targets se.2))
                0.0%float) ∧
    res = sort_desc fst
            (List.filter (λ te, (0 <? te.1)%float)
               ((λ se, ((se.1 + pool_get (link_propagation boosted)
                                  (get se.2 "id" EmptyString))%float, se.2))
                <$> boosted)).
Proof.
  set (corpus := [entry_a; entry_b; entry_c; entry_d]).
  exists (default [] (run corpus ["cache"])).
  destruct (propagation_single_hop TermCount.index TermCount64.make
              TermCount64.get_scores corpus ["cache"]
              (default [] (run corpus ["cache"])))
    as (bm25 & boosted & Hb & Hs & H).
  - evaluate.
  - vm_compute. discriminate.
  - apply (inj Some) in Hb. subst bm25.
    set (B0 := default [] (structural_boosts corpus
              (TermCount64.get_scores (entry_to_corpus_doc <$> corpus)
                 (tokenize (join " " ["cache"]))) ["cache"])).
    assert (boosted = B0) as ->.
    { apply (inj Some). rewrite <- Hs. evaluate. }
    exists (entry_to_corpus_doc <$> corpus), B0. split; [evaluate|]. split; [evaluate|].
    split; [evaluate|]. split; [evaluate|]. split; [evaluate|].
    split; [reflexivity|]. split; [exact Hs | exact H].
Defined.

(** The first and the last entry share the id "SPEC-007", which the
    second one links to. Their boosted scores are 10 and 0; both are
    returned, each with the pooled 11 * 0.15 added to its own score. *)
Lemma duplicate_ids_kept_witness :
  ∃ res bm25 boosted,
    run [dup_first; entry_f; dup_second] ["parser"] = Some res ∧
    boosted.*1 = [10.0; 11.0; 0.0]%float ∧
    pool_get (link_propagation boosted) "SPEC-007" = (11.0 * 0.15)%float ∧
    res = [((10.0 + 11.0 * 0.15)%float, dup_first); (11.0%float, entry_f);
           ((0.0 + 11.0 * 0.15)%float, dup_second)] ∧
    build_bm25_index TermCount.index TermCount64.make
      [dup_first; entry_f; dup_second] = Some bm25 ∧
    structural_boosts [dup_first; entry_f; dup_second]
      (TermCount64.get_scores bm25 (tokenize (join " " ["parser"])))
      ["parser"] = Some boosted ∧
    Forall2 (λ se e, se.2 = e) boosted [dup_first; entry_f; dup_second] ∧
    (∀ k se, boosted !! k = Some se →
       ∃ r, TermCount64.get_scores bm25 (tokenize (join " " ["parser"])) !! k
            = Some r ∧
            se.1 = boost_entry ["parser"] r se.2) ∧
    res ≡ₚ List.filter (λ te, (0 <? te.1)%float)
             ((λ se, ((se.1 + pool_get (link_propagation boosted)
                                (get se.2 "id" EmptyString))%float, se.2))
              <$> boosted) ∧
    length res =
      length (List.filter
                (λ se, (0 <? se.1 + pool_get (link_propagation boosted)
                                     (get se.2 "id" EmptyString))%float)
                boosted) ∧
    ∀ lid, pool_get (link_propagation boosted) lid
           = fold_left (λ pool score, (pool + score * 0.15)%float)
               (boosted ≫= λ se,
                  if (se.1 <=? 0)%float then []
                  else (λ _, se.1)
                         <$> List.filter (λ t, bool_decide (t = lid))
                               (Ranker.link_targets se.2))
               0.0%float.
Proof.
  set (corpus := [dup_first; entry_f; dup_second]).
  exists (default [] (run corpus ["parser"])).
  destruct (duplicate_ids_kept TermCount.index TermCount64.make
              TermCount64.get_scores corpus ["parser"]
              (default [] (run corpus ["parser"])))
    as (bm25 & boosted & Hb & Hs & H).
  - evaluate.
  - vm_compute. discriminate.
  - apply (inj Some) in Hb. subst bm25.
    set (B0 := default [] (structural_boosts corpus
              (TermCount64.get_scores (entry_to_corpus_doc <$> corpus)
                 (tokenize (join " " ["parser"]))) ["parser"])).
    assert (boosted = B0) as ->.
    { apply (inj Some). rewrite <- Hs. evaluate. }
    exists (entry_to_corpus_doc <$> corpus), B0. split; [evaluate|]. split; [evaluate|].
    split; [evaluate|]. split; [evaluate|]. split; [reflexivity|].
    split; [exact Hs | exact H].
Defined.

End Binary64Claims.
